(** * crypto-api-tracker: the caching HTTP client [APIService]

    A shallow embedding of [src/services/api_service.py] and the statements
    of its specification.

    Modelling decisions.
    - Python [str] is [string]; a character is a code point below 256.
    - A JSON value is a [json] tree.  Python's [None] is [JNull]; numbers are
      the integers, of any size (floating-point literals are outside the
      fragment: the decoder rejects them; CPython's limit on the digits of
      an integer conversion is left out).  A [dict] is an association list
      in insertion order whose keys are strings.
    - [json.dumps] and [json.loads] are written out as the CPython encoder
      and decoder behave with their default settings ([ensure_ascii],
      separators [", "] and [": "], strict string scanning).
    - [hashlib.md5] is written out over 32-bit words held in [Z].
    - The file system is a finite map from a path to the text and the
      modification time of the file; a write succeeds.  The readings of the
      clock and the answer of the remote server are inputs of [get], and the
      requests sent are recorded.  What [get] prints is left out.
    - [requests] is taken as of version 2.27 and later: [raise_for_status]
      raises for the statuses from 400 to 599, and a body that is not JSON
      raises a subclass of [RequestException].
    - Time is a rational number of seconds. *)

From Stdlib Require Import ZArith QArith Lia List Ascii String.
From Stdlib Require Import DecimalString DecimalZ DecimalPos DecimalFacts.
From stdpp Require Import gmap strings list fin_maps.

Local Open Scope Z_scope.

(** ** Characters *)

Definition ord (c : ascii) : Z := Z.of_N (N_of_ascii c).
Definition chr (n : Z) : ascii := ascii_of_N (Z.to_N n).

Definition is_digit (c : ascii) : bool := (48 <=? ord c) && (ord c <=? 57).

(** The four characters of the decoder's [WHITESPACE] pattern. *)
Definition is_ws (c : ascii) : bool :=
  (ord c =? 32) || (ord c =? 9) || (ord c =? 10) || (ord c =? 13).

Definition hex_digit (n : Z) : ascii :=
  if n <? 10 then chr (48 + n) else chr (87 + n).

Definition hex_value (c : ascii) : option Z :=
  let n := ord c in
  if (48 <=? n) && (n <=? 57) then Some (n - 48)
  else if (97 <=? n) && (n <=? 102) then Some (n - 87)
  else if (65 <=? n) && (n <=? 70) then Some (n - 55)
  else None.

(** ** JSON values *)

#[local] Set Warnings "-register-all".

Inductive json : Type :=
| JNull
| JBool (b : bool)
| JInt (n : Z)
| JStr (s : string)
| JList (l : list json)
| JDict (d : list (string * json)).

(** Python truthiness of a decoded value, as tested by [if cached_data:]. *)
Definition truthy (v : json) : bool :=
  match v with
  | JNull => false
  | JBool b => b
  | JInt n => negb (n =? 0)
  | JStr s => negb (String.eqb s "")
  | JList l => negb (Nat.eqb (List.length l) 0)
  | JDict d => negb (Nat.eqb (List.length d) 0)
  end.

(** *** Dictionaries in insertion order *)

Fixpoint dict_get (k : string) (d : list (string * json)) : option json :=
  match d with
  | [] => None
  | (k', v) :: d' => if String.eqb k k' then Some v else dict_get k d'
  end.

(** [d[k] = v]: an existing key keeps its position, a new key goes last. *)
Fixpoint dict_set (k : string) (v : json) (d : list (string * json))
  : list (string * json) :=
  match d with
  | [] => [(k, v)]
  | (k', v') :: d' =>
      if String.eqb k k' then (k, v) :: d' else (k', v') :: dict_set k v d'
  end.

(** [dict(pairs)]. *)
Definition dict_of_pairs (pairs : list (string * json)) : list (string * json) :=
  fold_left (fun d kv => dict_set (fst kv) (snd kv) d) pairs [].

Definition keys (d : list (string * json)) : list string := map fst d.

(** ** The encoder: [json.dumps] *)

Definition quote : string := String "034" "".

(** One character of [encode_basestring_ascii]: the short escapes of
    [ESCAPE_DCT], the printable ASCII characters as they are, and
    [\u00xx] for the others. *)
Definition escape_char (c : ascii) : string :=
  let n := ord c in
  if n =? 34 then "\" +:+ quote
  else if n =? 92 then "\\"
  else if n =? 10 then "\n"
  else if n =? 13 then "\r"
  else if n =? 9 then "\t"
  else if n =? 12 then "\f"
  else if n =? 8 then "\b"
  else if (32 <=? n) && (n <=? 126) then String c ""
  else "\u00" +:+ String (hex_digit (n / 16)) (String (hex_digit (n mod 16)) "").

Fixpoint escape (s : string) : string :=
  match s with
  | EmptyString => ""
  | String c r => escape_char c +:+ escape r
  end.

Definition encode_basestring_ascii (s : string) : string :=
  quote +:+ escape s +:+ quote.

(** [int.__repr__]. *)
Definition int_repr (n : Z) : string := NilZero.string_of_int (Z.to_int n).

Definition dump_item (dump : json -> string) (kv : string * json) : string :=
  encode_basestring_ascii (fst kv) +:+ ": " +:+ dump (snd kv).

Fixpoint dumps (v : json) : string :=
  match v with
  | JNull => "null"
  | JBool true => "true"
  | JBool false => "false"
  | JInt n => int_repr n
  | JStr s => encode_basestring_ascii s
  | JList l => "[" +:+ String.concat ", " (map dumps l) +:+ "]"
  | JDict d => "{" +:+ String.concat ", " (map (dump_item dumps) d) +:+ "}"
  end.

(** [sorted(dct.items())]: the keys of a dictionary are distinct, so the
    order is the code-point order of the keys. *)
Fixpoint insert_item (kv : string * json) (d : list (string * json))
  : list (string * json) :=
  match d with
  | [] => [kv]
  | kv' :: d' =>
      if String.leb (fst kv) (fst kv') then kv :: d else kv' :: insert_item kv d'
  end.

Definition sorted_items (d : list (string * json)) : list (string * json) :=
  fold_right insert_item [] d.

(** [json.dumps(v, sort_keys=True)]: the items of every dictionary of the
    value are written in sorted order. *)
Fixpoint sort_keys (v : json) : json :=
  match v with
  | JList l => JList (map sort_keys l)
  | JDict d => JDict (sorted_items (map (fun kv => (fst kv, sort_keys (snd kv))) d))
  | _ => v
  end.

Definition dumps_sorted (v : json) : string := dumps (sort_keys v).

(** ** The decoder: [json.loads] *)

Fixpoint skip_ws (s : string) : string :=
  match s with
  | String c r => if is_ws c then skip_ws r else s
  | EmptyString => s
  end.

Fixpoint strip_prefix (p s : string) : option string :=
  match p with
  | EmptyString => Some s
  | String a p' =>
      match s with
      | String b s' => if Ascii.eqb a b then strip_prefix p' s' else None
      | EmptyString => None
      end
  end.

(** The decoder's [BACKSLASH] table. *)
Definition unescape (e : ascii) : option ascii :=
  let n := ord e in
  if n =? 34 then Some e
  else if n =? 92 then Some e
  else if n =? 47 then Some e
  else if n =? 98 then Some (chr 8)
  else if n =? 102 then Some (chr 12)
  else if n =? 110 then Some (chr 10)
  else if n =? 114 then Some (chr 13)
  else if n =? 116 then Some (chr 9)
  else None.

Definition decode_hex4 (a b c d : ascii) : option Z :=
  match hex_value a, hex_value b, hex_value c, hex_value d with
  | Some x, Some y, Some z, Some w => Some (((x * 16 + y) * 16 + z) * 16 + w)
  | _, _, _, _ => None
  end.

Definition cons_char (c : ascii) (r : option (string * string))
  : option (string * string) :=
  match r with
  | Some (t, rest) => Some (String c t, rest)
  | None => None
  end.

(** [scanstring], entered after the opening quote: the text of the string
    and what follows its closing quote.  A control character, an unknown
    escape or the end of the input inside the string is an error; so is a
    [\u] escape of a code point from 256 on, which this fragment lacks. *)
Fixpoint scanstring (s : string) : option (string * string) :=
  match s with
  | EmptyString => None
  | String c r =>
      if ord c =? 34 then Some (EmptyString, r)
      else if ord c =? 92 then
        match r with
        | String e r1 =>
            if ord e =? 117 then
              match r1 with
              | String h1 (String h2 (String h3 (String h4 r2))) =>
                  match decode_hex4 h1 h2 h3 h4 with
                  | Some n => if n <? 256 then cons_char (chr n) (scanstring r2)
                              else None
                  | None => None
                  end
              | _ => None
              end
            else
              match unescape e with
              | Some ch => cons_char ch (scanstring r1)
              | None => None
              end
        | EmptyString => None
        end
      else if ord c <? 32 then None
      else cons_char c (scanstring r)
  end.

(** The digits at the head of a text and what follows them. *)
Fixpoint span_digits (s : string) : string * string :=
  match s with
  | String c r =>
      if is_digit c then let (ds, rest) := span_digits r in (String c ds, rest)
      else (EmptyString, s)
  | EmptyString => (EmptyString, EmptyString)
  end.

Definition starts_with_digit (s : string) : bool :=
  match s with
  | String c _ => is_digit c
  | EmptyString => false
  end.

(** The optional groups of [NUMBER_RE]: a fraction [\.[0-9]+] or an
    exponent [[eE][-+]?[0-9]+] after the integer part makes the literal a
    float. *)
Definition has_frac (r : string) : bool :=
  match r with
  | String c r' => (ord c =? 46) && starts_with_digit r'
  | EmptyString => false
  end.

Definition has_exp (r : string) : bool :=
  match r with
  | String c r' =>
      ((ord c =? 101) || (ord c =? 69)) &&
      (starts_with_digit r' ||
       match r' with
       | String sg r'' => ((ord sg =? 43) || (ord sg =? 45)) && starts_with_digit r''
       | EmptyString => false
       end)
  | EmptyString => false
  end.

(** The integer part of [NUMBER_RE]: an optional minus sign, then either a
    single 0 or a digit from 1 to 9 followed by any digits. *)
Definition match_integer (s : string) : option (Decimal.signed_int * string) :=
  let '(neg, r) := match s with
                   | String c r' => if ord c =? 45 then (true, r') else (false, s)
                   | EmptyString => (false, s)
                   end in
  match r with
  | String c r' =>
      if is_digit c then
        let (ds, rest) := if ord c =? 48 then (String c EmptyString, r')
                          else span_digits r in
        match NilEmpty.uint_of_string ds with
        | Some u => Some (if neg then Decimal.Neg u else Decimal.Pos u, rest)
        | None => None
        end
      else None
  | EmptyString => None
  end.

Definition parse_number (s : string) : option (json * string) :=
  match match_integer s with
  | Some (i, rest) =>
      if has_frac rest || has_exp rest then None
      else Some (JInt (Z.of_int i), rest)
  | None => None
  end.

Definition parse_literal (s : string) : option (json * string) :=
  match strip_prefix "null" s with
  | Some r => Some (JNull, r)
  | None =>
  match strip_prefix "true" s with
  | Some r => Some (JBool true, r)
  | None =>
  match strip_prefix "false" s with
  | Some r => Some (JBool false, r)
  | None => parse_number s
  end end end.

(** [scan_once] with [JSONObject] and [JSONArray].  The fuel bounds the
    nesting of calls; [loads] gives enough of it for the whole text. *)
Fixpoint parse_value (fuel : nat) (s : string) : option (json * string) :=
  match fuel with
  | O => None
  | S f =>
      match s with
      | EmptyString => None
      | String c r =>
          if ord c =? 34 then
            match scanstring r with
            | Some (t, rest) => Some (JStr t, rest)
            | None => None
            end
          else if ord c =? 123 then
            match skip_ws r with
            | String c1 r1 =>
                if ord c1 =? 125 then Some (JDict [], r1)
                else if ord c1 =? 34 then parse_members f r1 []
                else None
            | EmptyString => None
            end
          else if ord c =? 91 then
            match skip_ws r with
            | String c1 r1 =>
                if ord c1 =? 93 then Some (JList [], r1)
                else parse_elements f (String c1 r1) []
            | EmptyString => None
            end
          else parse_literal s
      end
  end

with parse_elements (fuel : nat) (s : string) (acc : list json)
  : option (json * string) :=
  match fuel with
  | O => None
  | S f =>
      match parse_value f s with
      | Some (v, r) =>
          match skip_ws r with
          | String c r1 =>
              if ord c =? 93 then Some (JList (acc ++ [v]), r1)
              else if ord c =? 44 then parse_elements f (skip_ws r1) (acc ++ [v])
              else None
          | EmptyString => None
          end
      | None => None
      end
  end

with parse_members (fuel : nat) (s : string) (acc : list (string * json))
  : option (json * string) :=
  match fuel with
  | O => None
  | S f =>
      match scanstring s with
      | Some (k, r) =>
          match skip_ws r with
          | String c r1 =>
              if ord c =? 58 then
                match parse_value f (skip_ws r1) with
                | Some (v, r2) =>
                    match skip_ws r2 with
                    | String c2 r3 =>
                        if ord c2 =? 125 then
                          Some (JDict (dict_of_pairs (acc ++ [(k, v)])), r3)
                        else if ord c2 =? 44 then
                          match skip_ws r3 with
                          | String c3 r4 =>
                              if ord c3 =? 34 then parse_members f r4 (acc ++ [(k, v)])
                              else None
                          | EmptyString => None
                          end
                        else None
                    | EmptyString => None
                    end
                | None => None
                end
              else None
          | EmptyString => None
          end
      | None => None
      end
  end.

Definition decode (fuel : nat) (s : string) : option json :=
  match parse_value fuel (skip_ws s) with
  | Some (v, r) =>
      match skip_ws r with
      | EmptyString => Some v
      | String _ _ => None
      end
  | None => None
  end.

(** Twice the length of the text is fuel enough for any text (see
    [decode_fuel_enough]). *)
Definition loads (s : string) : option json :=
  decode (2 * String.length s + 2) s.

(** ** Values as Python builds them *)

Fixpoint distinct (l : list string) : bool :=
  match l with
  | [] => true
  | k :: l' => negb (existsb (String.eqb k) l') && distinct l'
  end.

(** The keys of every dictionary of the value are distinct. *)
Fixpoint well_formed (v : json) : bool :=
  match v with
  | JList l => forallb well_formed l
  | JDict d =>
      distinct (keys d) && forallb (fun kv => well_formed (snd kv)) d
  | _ => true
  end.

(** Equality of decoded values as Python's [==] takes it on lists and
    dictionaries: lists element by element, dictionaries key by key whatever
    the order of their items.  (A boolean is not taken as equal to a number
    here.) *)
Fixpoint same_value (a b : json) : bool :=
  match a, b with
  | JNull, JNull => true
  | JBool x, JBool y => Bool.eqb x y
  | JInt x, JInt y => x =? y
  | JStr x, JStr y => String.eqb x y
  | JList l1, JList l2 =>
      (fix go (l1 l2 : list json) : bool :=
         match l1, l2 with
         | [], [] => true
         | x :: l1', y :: l2' => same_value x y && go l1' l2'
         | _, _ => false
         end) l1 l2
  | JDict da, JDict db =>
      Nat.eqb (List.length da) (List.length db) &&
      forallb (fun kv => match dict_get (fst kv) db with
                         | Some v' => same_value (snd kv) v'
                         | None => false
                         end) da
  | _, _ => false
  end.

(** ** [hashlib.md5] *)

Module MD5.

Definition add32 (x y : Z) : Z := (x + y) mod 2 ^ 32.
Definition not32 (x : Z) : Z := Z.lxor x 0xffffffff.
Definition rotl32 (x n : Z) : Z :=
  Z.lor (Z.shiftl x n mod 2 ^ 32) (Z.shiftr x (32 - n)).

Definition shifts : list Z :=
  [7; 12; 17; 22; 7; 12; 17; 22; 7; 12; 17; 22; 7; 12; 17; 22;
   5; 9; 14; 20; 5; 9; 14; 20; 5; 9; 14; 20; 5; 9; 14; 20;
   4; 11; 16; 23; 4; 11; 16; 23; 4; 11; 16; 23; 4; 11; 16; 23;
   6; 10; 15; 21; 6; 10; 15; 21; 6; 10; 15; 21; 6; 10; 15; 21].

Definition sines : list Z :=
  [0xd76aa478; 0xe8c7b756; 0x242070db; 0xc1bdceee;
   0xf57c0faf; 0x4787c62a; 0xa8304613; 0xfd469501;
   0x698098d8; 0x8b44f7af; 0xffff5bb1; 0x895cd7be;
   0x6b901122; 0xfd987193; 0xa679438e; 0x49b40821;
   0xf61e2562; 0xc040b340; 0x265e5a51; 0xe9b6c7aa;
   0xd62f105d; 0x02441453; 0xd8a1e681; 0xe7d3fbc8;
   0x21e1cde6; 0xc33707d6; 0xf4d50d87; 0x455a14ed;
   0xa9e3e905; 0xfcefa3f8; 0x676f02d9; 0x8d2a4c8a;
   0xfffa3942; 0x8771f681; 0x6d9d6122; 0xfde5380c;
   0xa4beea44; 0x4bdecfa9; 0xf6bb4b60; 0xbebfbc70;
   0x289b7ec6; 0xeaa127fa; 0xd4ef3085; 0x04881d05;
   0xd9d4d039; 0xe6db99e5; 0x1fa27cf8; 0xc4ac5665;
   0xf4292244; 0x432aff97; 0xab9423a7; 0xfc93a039;
   0x655b59c3; 0x8f0ccc92; 0xffeff47d; 0x85845dd1;
   0x6fa87e4f; 0xfe2ce6e0; 0xa3014314; 0x4e0811a1;
   0xf7537e82; 0xbd3af235; 0x2ad7d2bb; 0xeb86d391].

Definition nthZ (l : list Z) (i : Z) : Z := nth (Z.to_nat i) l 0.

(** The four words A, B, C, D of the running digest. *)
Definition state : Type := Z * Z * Z * Z.

Definition init : state := (0x67452301, 0xefcdab89, 0x98badcfe, 0x10325476).

(** Operation [i] (0 to 63) on the sixteen words [M] of a block. *)
Definition step (M : list Z) (st : state) (i : Z) : state :=
  let '(A, B, C, D) := st in
  let '(F, g) :=
    if i <? 16 then (Z.lor (Z.land B C) (Z.land (not32 B) D), i)
    else if i <? 32 then
      (Z.lor (Z.land D B) (Z.land (not32 D) C), (5 * i + 1) mod 16)
    else if i <? 48 then (Z.lxor (Z.lxor B C) D, (3 * i + 5) mod 16)
    else (Z.lxor C (Z.lor B (not32 D)), (7 * i) mod 16) in
  let F' := add32 (add32 (add32 F A) (nthZ sines i)) (nthZ M g) in
  (D, add32 B (rotl32 F' (nthZ shifts i)), B, C).

Definition rounds : list Z := map Z.of_nat (seq 0 64).

Definition compress (st : state) (M : list Z) : state :=
  let '(A, B, C, D) := st in
  let '(A', B', C', D') := fold_left (step M) rounds st in
  (add32 A A', add32 B B', add32 C C', add32 D D').

(** Little-endian words of a sequence of bytes. *)
Fixpoint words (bytes : list Z) : list Z :=
  match bytes with
  | b0 :: b1 :: b2 :: b3 :: r =>
      (b0 + 2 ^ 8 * b1 + 2 ^ 16 * b2 + 2 ^ 24 * b3) :: words r
  | _ => []
  end.

Definition le_bytes (n : nat) (x : Z) : list Z :=
  map (fun i => (x / 2 ^ (8 * Z.of_nat i)) mod 256) (seq 0 n).

(** The message, a one bit, zeros up to 56 modulo 64, and the length in
    bits on eight bytes. *)
Definition pad (msg : list Z) : list Z :=
  let n := Z.of_nat (List.length msg) in
  let zeros := Z.to_nat ((55 - n) mod 64) in
  msg ++ [128] ++ repeat 0 zeros ++ le_bytes 8 ((8 * n) mod 2 ^ 64).

Fixpoint blocks (fuel : nat) (ws : list Z) : list (list Z) :=
  match fuel with
  | O => []
  | S f =>
      match ws with
      | [] => []
      | _ => firstn 16 ws :: blocks f (skipn 16 ws)
      end
  end.

Definition digest (msg : list Z) : list Z :=
  let ws := words (pad msg) in
  let '(A, B, C, D) := fold_left compress (blocks (List.length ws) ws) init in
  le_bytes 4 A ++ le_bytes 4 B ++ le_bytes 4 C ++ le_bytes 4 D.

Definition hex_byte (b : Z) : string :=
  String (hex_digit (b / 16)) (String (hex_digit (b mod 16)) EmptyString).

Definition hexdigest (msg : list Z) : string :=
  fold_right (fun b acc => hex_byte b +:+ acc) EmptyString (digest msg).

End MD5.

(** [str.encode()]: UTF-8, one byte below 128 and two bytes from there. *)
Fixpoint encode (s : string) : list Z :=
  match s with
  | EmptyString => []
  | String c r =>
      let n := ord c in
      if n <? 128 then n :: encode r
      else (192 + n / 64) :: (128 + n mod 64) :: encode r
  end.

(** ** The world of the service *)

(** A cache file: its text and its modification time. *)
Record file : Type := { content : string; st_mtime : Q }.

(** The exceptions of a request.  All but [Exception] are subclasses of
    [requests.exceptions.RequestException]. *)
Inductive exn : Type :=
| ConnectionError
| Timeout
| HTTPError (status_code : Z)
| JSONDecodeError
| Exception (msg : string).

Definition is_RequestException (e : exn) : bool :=
  match e with
  | Exception _ => false
  | _ => true
  end.

(** What [session.get] does: it raises, or it returns a response. *)
Inductive answer : Type :=
| Raised (e : exn)
| Response (status_code : Z) (text : string).

(** [response.raise_for_status()]: the 4xx and 5xx statuses raise. *)
Definition raise_for_status (status_code : Z) : option exn :=
  if (400 <=? status_code) && (status_code <? 600)
  then Some (HTTPError status_code) else None.

(** The file system and the requests sent so far, latest first. *)
Record world : Type := {
  fs : gmap string file;
  sent : list (string * list (string * json))
}.

Inductive outcome : Type :=
| Return (data : json)
| Raise (e : exn).

Definition Qltb (x y : Q) : bool :=
  match Qcompare x y with
  | Lt => true
  | _ => false
  end.

(** [str.replace(old, new)] for single characters. *)
Fixpoint replace (old new : ascii) (s : string) : string :=
  match s with
  | EmptyString => EmptyString
  | String c r => String (if Ascii.eqb c old then new else c) (replace old new r)
  end.

Module APIService.

Definition CACHE_DIR : string := "data/cache".
Definition CACHE_EXPIRY : Q := 300.

Record t : Type := { base_url : string }.

Definition _get_cache_path (endpoint : string) : string :=
  CACHE_DIR +:+ "/" +:+ replace "/" "_" endpoint +:+ ".json".

(** [now] is the reading of [time.time()]. *)
Definition _is_cache_valid (now : Q) (files : gmap string file)
    (cache_file : string) : bool :=
  match files !! cache_file with
  | None => false
  | Some f => Qltb (now - st_mtime f) CACHE_EXPIRY
  end.

(** [now] is the clock of the file system at the write. *)
Definition _save_to_cache (now : Q) (files : gmap string file)
    (cache_file : string) (data : json) : gmap string file :=
  <[cache_file := {| content := dumps data; st_mtime := now |}]> files.

(** A missing file ([IOError]) and a text that does not decode
    ([JSONDecodeError]) both give [None]. *)
Definition _load_from_cache (files : gmap string file) (cache_file : string)
  : json :=
  match files !! cache_file with
  | None => JNull
  | Some f =>
      match loads (content f) with
      | Some data => data
      | None => JNull
      end
  end.

(** [params or {}]. *)
Definition or_empty (params : option (list (string * json)))
  : list (string * json) :=
  match params with
  | Some d => if truthy (JDict d) then d else []
  | None => []
  end.

Definition key (endpoint : string) (params : option (list (string * json)))
  : string :=
  endpoint +:+ dumps_sorted (JDict (or_empty params)).

Definition hashed (endpoint : string) (params : option (list (string * json)))
  : string :=
  MD5.hexdigest (encode (key endpoint params)).

Definition cache_file (endpoint : string)
    (params : option (list (string * json))) : string :=
  _get_cache_path (hashed endpoint params).

(** The query of the request sent: [requests] reads an absent [params]
    as no parameters. *)
Definition query (params : option (list (string * json)))
  : list (string * json) :=
  match params with
  | Some d => d
  | None => []
  end.

(** The body of the [try]: the exception raised or the decoded data. *)
Definition attempt (a : answer) : exn + json :=
  match a with
  | Raised e => inl e
  | Response status_code text =>
      match raise_for_status status_code with
      | Some e => inl e
      | None =>
          match loads text with
          | Some data => inr data
          | None => inl JSONDecodeError
          end
      end
  end.

(** [get(endpoint, params)].  [now] is the clock at the validity check,
    [later] the clock at the write of the cache file, and [net] the
    answer of [session.get] to a request. *)
Definition get (self : t) (now later : Q)
    (net : string -> list (string * json) -> answer)
    (w : world) (endpoint : string) (params : option (list (string * json)))
  : outcome * world :=
  let cache_file := cache_file endpoint params in
  if _is_cache_valid now (fs w) cache_file
     && truthy (_load_from_cache (fs w) cache_file)
  then (Return (_load_from_cache (fs w) cache_file), w)
  else
    let url := base_url self +:+ "/" +:+ endpoint in
    let w1 := {| fs := fs w; sent := (url, query params) :: sent w |} in
    match attempt (net url (query params)) with
    | inr data =>
        (Return data,
         {| fs := _save_to_cache later (fs w1) cache_file data;
            sent := sent w1 |})
    | inl e =>
        if is_RequestException e then
          let cached_data := _load_from_cache (fs w1) cache_file in
          if truthy cached_data then (Return cached_data, w1)
          else (Raise e, w1)
        else (Raise e, w1)
    end.

End APIService.

(** ** Sample worlds *)

Import APIService.

Module Demo.

Definition svc : t := {| base_url := "https://api.binance.com/api/v3" |}.

Definition bitcoin : json :=
  JDict [("id", JStr "bitcoin"); ("current_price", JInt 42)].

(** A server that cannot be reached, and servers that answer. *)
Definition net_down (url : string) (q : list (string * json)) : answer :=
  Raised ConnectionError.

Definition net_ok (url : string) (q : list (string * json)) : answer :=
  Response 200 "[{}]".



(** The cache file of [get("coins/bitcoin")] written at time 1000 with the
    given data, and nothing sent yet. *)
Definition cached (data : json) : world :=
  {| fs := {[ cache_file "coins/bitcoin" None :=
                {| content := dumps data; st_mtime := 1000 |} ]};
     sent := [] |}.

Definition empty_world : world := {| fs := ∅; sent := [] |}.

(** The parameters of a market query, in two orders, and for another
    page. *)
Definition markets : option (list (string * json)) :=
  Some [("vs_currency", JStr "usd"); ("page", JInt 1);
        ("sparkline", JBool false)].

Definition markets_reordered : option (list (string * json)) :=
  Some [("sparkline", JBool false); ("page", JInt 1);
        ("vs_currency", JStr "usd")].

Definition markets_next : option (list (string * json)) :=
  Some [("vs_currency", JStr "usd"); ("page", JInt 2);
        ("sparkline", JBool false)].


End Demo.

(** * The commands of [main.py]

    [get_top_cryptos] and [monitor_price], with [send_email_alert] of
    [utils/helpers.py].  [display_crypto_data] and [main] are left out:
    they lay out a table with [tabulate] and read the command line with
    [argparse].

    Further modelling decisions.
    - A command calls [api.get] several times; each call has its own
      readings of the clock and its own server, given by its position in
      the run.
    - A list or a dictionary that the code updates in place is a value that
      is replaced; the decoded answers are trees, so that no other name
      sees the update.
    - What the commands print is left out.  The text of [str(v)], of
      [s.upper()] and of a number in a fixed notation, and the number that
      [float(s)] reads, are parameters of [monitor_price]; which of these
      calls raise is written out.
    - A [float] is a rational number, an infinity or not a number; the
      threshold is one, and so is the price read from a string. *)

(** ** Operations on values

    An operation that raises has no result.  The commands run these
    operations inside a [try] whose [except Exception] catches whatever
    they raise, so that which exception it is makes no difference. *)

(** The number a value is compared as: [True] is 1 and [False] is 0. *)
Definition number (v : json) : option Z :=
  match v with
  | JBool b => Some (Z.b2z b)
  | JInt n => Some n
  | _ => None
  end.

(** [a == b]. *)
Fixpoint py_eq (a b : json) : bool :=
  match a, b with
  | JNull, JNull => true
  | JStr x, JStr y => String.eqb x y
  | JList l1, JList l2 =>
      (fix go (l1 l2 : list json) : bool :=
         match l1, l2 with
         | [], [] => true
         | x :: l1', y :: l2' => py_eq x y && go l1' l2'
         | _, _ => false
         end) l1 l2
  | JDict da, JDict db =>
      Nat.eqb (List.length da) (List.length db) &&
      forallb (fun kv => match dict_get (fst kv) db with
                         | Some v' => py_eq (snd kv) v'
                         | None => false
                         end) da
  | _, _ =>
      match number a, number b with
      | Some x, Some y => x =? y
      | _, _ => false
      end
  end.

(** The position that an index stands for in a sequence of the given
    length: a negative index counts from the end. *)
Definition position (i : Z) (len : nat) : option nat :=
  let j := if i <? 0 then i + Z.of_nat len else i in
  if (0 <=? j) && (j <? Z.of_nat len) then Some (Z.to_nat j) else None.

(** [value[key]]: a [KeyError] for a key that is missing, an [IndexError]
    for a position out of range, a [TypeError] for a key that is not
    hashable, for an index that is not a number and for a value that is
    neither a dictionary nor a sequence. *)
Definition getitem (value key : json) : option json :=
  match value with
  | JDict d =>
      match key with
      | JStr k => dict_get k d
      | _ => None
      end
  | JList l => i ← number key; j ← position i (List.length l); l !! j
  | JStr s =>
      i ← number key; j ← position i (String.length s);
      c ← String.get j s; Some (JStr (String c EmptyString))
  | _ => None
  end.

(** [value.get(k, default)]: only a dictionary has the method. *)
Definition get_or (value : json) (k : string) (fallback : json)
  : option json :=
  match value with
  | JDict d => Some (default fallback (dict_get k d))
  | _ => None
  end.

(** [value[k] = x] for a string [k]: the value after the assignment. *)
Definition setitem (value : json) (k : string) (x : json) : option json :=
  match value with
  | JDict d => Some (JDict (dict_set k x d))
  | _ => None
  end.

Fixpoint starts_with (s t : string) : bool :=
  match s, t with
  | EmptyString, _ => true
  | String a s', String b t' => Ascii.eqb a b && starts_with s' t'
  | String _ _, EmptyString => false
  end.

Fixpoint occurs_in (s t : string) : bool :=
  starts_with s t ||
  match t with
  | EmptyString => false
  | String _ t' => occurs_in s t'
  end.

(** [x in container]: a key of a dictionary (a list or a dictionary is not
    hashable), an element of a list, a part of a string; nothing else is
    iterable. *)
Definition contains (x container : json) : option bool :=
  match container with
  | JDict d =>
      match x with
      | JStr k => Some (existsb (String.eqb k) (keys d))
      | JList _ | JDict _ => None
      | _ => Some false
      end
  | JList l => Some (existsb (py_eq x) l)
  | JStr t =>
      match x with
      | JStr s => Some (occurs_in s t)
      | _ => None
      end
  | _ => None
  end.

(** The strings of a list of strings. *)
Definition as_str (v : json) : option string :=
  match v with
  | JStr s => Some s
  | _ => None
  end.

(** [sep.join(l)]: every element has to be a string. *)
Definition join (sep : string) (l : list json) : option string :=
  String.concat sep <$> mapM as_str l.

(** ** [get_top_cryptos] *)

(** One call of [api.get]: the readings of the clock at the validity check
    and at the write, and the server as it answers then. *)
Record call : Type := {
  checked : Q;
  written : Q;
  server : string -> list (string * json) -> answer
}.

Definition api_get (api : t) (c : call) (w : world) (endpoint : string)
    (params : list (string * json)) : outcome * world :=
  get api (checked c) (written c) (server c) w endpoint (Some params).

Definition base_params (limit : Z) : list (string * json) :=
  [("order", JStr "market_cap_desc"); ("per_page", JInt limit);
   ("page", JInt 1); ("sparkline", JBool false);
   ("price_change_percentage", JStr "24h")].

(** The body of [for coin in data]: the coin after the step. *)
Definition merge_price (prices : json) (currency : string) (coin : json)
  : option json :=
  coin_id ← getitem coin (JStr "id");
  found ← contains coin_id prices;
  if found : bool then
    absent ← negb <$> contains (JStr "current_price") coin;
    coin ← (if absent : bool then setitem coin "current_price" (JDict [])
            else Some coin);
    price ← (entry ← getitem prices coin_id; get_or entry currency JNull);
    current_price ← getitem coin (JStr "current_price");
    current_price ← setitem current_price currency price;
    setitem coin "current_price" current_price
  else Some coin.

(** [",".join([coin["id"] for coin in data])]. *)
Definition coin_ids (data : list json) : option string :=
  l ← mapM (fun coin => getitem coin (JStr "id")) data; join "," l.

Definition price_params (ids currency : string) : list (string * json) :=
  [("ids", JStr ids); ("vs_currencies", JStr currency)].

(** The loop over [currencies[1:]].  [n] counts the calls of [api.get] made
    so far.  No result stands for an exception. *)
Fixpoint more_currencies (api : t) (calls : nat -> call) (n : nat)
    (w : world) (data : list json) (currencies : list string)
  : option (list json) * world :=
  match currencies with
  | [] => (Some data, w)
  | currency :: rest =>
      match coin_ids data with
      | None => (None, w)
      | Some ids =>
          match api_get api (calls n) w "simple/price"
                  (price_params ids currency) with
          | (Raise _, w1) => (None, w1)
          | (Return prices, w1) =>
              match mapM (merge_price prices currency) data with
              | None => (None, w1)
              | Some data => more_currencies api calls (S n) w1 data rest
              end
          end
      end
  end.

Definition market_params (limit : Z) (currency : string)
  : list (string * json) :=
  base_params limit ++ [("vs_currency", JStr currency)].

Definition get_top_cryptos (api : t) (calls : nat -> call) (w : world)
    (limit : Z) (currencies : list string) : list json * world :=
  let currencies := if currencies is [] then ["usd"] else currencies in
  match currencies with
  | [] => ([], w)
  | first :: rest =>
      match api_get api (calls 0%nat) w "coins/markets"
              (market_params limit first) with
      | (Return (JList data), w1) =>
          if rest is [] then (data, w1)
          else
            match more_currencies api calls 1 w1 data rest with
            | (Some data, w2) => (data, w2)
            | (None, w2) => ([], w2)
            end
      | (_, w1) => ([], w1)
      end
  end.

(** The requests of [get_top_cryptos]: one to the markets of the first
    currency and one to the prices for each further currency. *)
Definition is_market_request (api : t) (r : string * list (string * json))
  : Prop :=
  fst r = base_url api +:+ "/coins/markets"
  \/ fst r = base_url api +:+ "/simple/price".

(** ** [send_email_alert]

    The environment and the mail server are inputs: [getenv] is
    [os.getenv], and [login sender password] tells whether the connection
    to the server and the login succeed.  The result is the message handed
    to [send_message], if any. *)

Record mail : Type := {
  Subject : string;
  From : string;
  To : string;
  payload : string
}.

(** The truth value of what [os.getenv] returns. *)
Definition is_set (value : option string) : bool :=
  match value with
  | Some s => negb (String.eqb s "")
  | None => false
  end.

Definition send_email_alert (getenv : string -> option string)
    (login : string -> string -> bool) (subject body : string)
  : option mail :=
  let sender := getenv "ALERT_EMAIL" in
  let password := getenv "ALERT_PASSWORD" in
  let recipient :=
    if is_set (getenv "ALERT_RECIPIENT") then getenv "ALERT_RECIPIENT"
    else sender in
  if negb (forallb is_set [sender; password]) then None
  else
    match sender, password, recipient with
    | Some sender, Some password, Some recipient =>
        let msg := {| Subject := subject; From := sender; To := recipient;
                      payload := body |} in
        if login sender password then Some msg else None
    | _, _, _ => None
    end.

(** ** [monitor_price] *)

(** A [float]: a finite number, an infinity or not a number. *)
Inductive pyfloat : Type :=
| Finite (q : Q)
| Infinity (negative : bool)
| NaN.

(** [x <= y] on floats. *)
Definition float_le (x y : pyfloat) : bool :=
  match x, y with
  | NaN, _ | _, NaN => false
  | Infinity true, _ => true
  | _, Infinity false => true
  | Infinity false, _ => false
  | _, Infinity true => false
  | Finite a, Finite b => Qle_bool a b
  end.

(** [n <= y] for an integer [n], compared as the number it is. *)
Definition int_le (n : Z) (y : pyfloat) : bool :=
  match y with
  | NaN => false
  | Infinity negative => negb negative
  | Finite b => Qle_bool (inject_Z n) b
  end.

(** The price after the conversions: a decoded value that is not a string,
    or the float a string was read as. *)
Inductive price : Type :=
| Value (v : json)
| Float (x : pyfloat).

(** [current_price <= threshold]: a [TypeError] unless the price is a
    number. *)
Definition le_threshold (current_price : price) (threshold : pyfloat)
  : option bool :=
  match current_price with
  | Float x => Some (float_le x threshold)
  | Value v => n ← number v; Some (int_le n threshold)
  end.

(** Whether [format(x, ".2f")] returns: a float, or an integer that
    converts to a float ([OverflowError] from 2^1024 - 2^970 on). *)
Definition has_fixed (x : price) : bool :=
  match x with
  | Float _ => true
  | Value v =>
      match number v with
      | Some n => Z.abs n <? 2 ^ 1024 - 2 ^ 970
      | None => false
      end
  end.

Definition newline : string := String "010" EmptyString.

Section Texts.

(** [float(s)] for a string, without a result for a [ValueError]. *)
Variable float_of : string -> option pyfloat.

(** [str(v)], [s.upper()], and [format(x, ".2f")] or, with grouping,
    [format(x, ",.2f")] where it returns. *)
Variable str_of : json -> string.
Variable upper : string -> string.
Variable fixed : bool -> price -> string.

Definition format_fixed (grouping : bool) (x : price) : option string :=
  if has_fixed x then Some (fixed grouping x) else None.

(** The price of the coin, from [coin.get("current_price")] to the
    conversion of a string. *)
Definition current_price_of (coin : json) (currency : string)
  : option price :=
  current_price ← get_or coin "current_price" JNull;
  current_price ← (if current_price is JDict _
                   then get_or current_price currency (JInt 0)
                   else Some current_price);
  Some (if current_price is JStr s
        then default (Value (JInt 0)) (Float <$> float_of s)
        else Value current_price).

(** What follows the call of [api.get]: the subject and the body that
    [send_email_alert] is called with, if it is called. *)
Definition alert (coin_id : string) (threshold : pyfloat)
    (currency : string) (data : json) : option (string * string) :=
  match data with
  | JList (coin :: _) =>
      current_price ← current_price_of coin currency;
      below ← le_threshold current_price threshold;
      if below : bool then
        name ← get_or coin "name" (JStr coin_id);
        dropped_to ← format_fixed false current_price;
        change ← get_or coin "price_change_percentage_24h" (JStr "N/A");
        caps ← get_or coin "market_cap" (JDict []);
        cap ← get_or caps currency (JStr "N/A");
        market_cap ← format_fixed true (Value cap);
        Some ("Crypto Alert: " +:+ str_of name +:+ " Price Drop",
              "Alert! " +:+ str_of name +:+ " price dropped to " +:+
              dropped_to +:+ " " +:+ upper currency +:+ newline +:+
              "24h Change: " +:+ str_of change +:+ "%" +:+ newline +:+
              "Market Cap: " +:+ market_cap)
      else None
  | _ => None
  end.

Definition monitor_price (api : t) (c : call)
    (getenv : string -> option string) (login : string -> string -> bool)
    (w : world) (coin_id : string) (threshold : pyfloat) (currency : string)
  : option mail * world :=
  let params := [("vs_currency", JStr currency); ("ids", JStr coin_id)] in
  match api_get api c w "coins/markets" params with
  | (Return data, w1) =>
      (message ← alert coin_id threshold currency data;
       send_email_alert getenv login (fst message) (snd message), w1)
  | (Raise _, w1) => (None, w1)
  end.

End Texts.



(** ** Sample answers of the market server *)

Module Market.

(** A coin as [coins/markets] lists it, with plain numbers, and a coin with
    a dictionary for each figure. *)
Definition plain_coin : json :=
  JDict [("id", JStr "bitcoin"); ("name", JStr "Bitcoin");
         ("current_price", JInt 42); ("market_cap", JInt 800)].

Definition coin_by_currency : json :=
  JDict [("id", JStr "bitcoin"); ("name", JStr "Bitcoin");
         ("current_price", JDict [("usd", JInt 42)]);
         ("market_cap", JDict [("usd", JInt 800)])].

Definition prices : json := JDict [("bitcoin", JDict [("eur", JInt 39)])].

(** A server that answers [coins/markets] with [markets] and any other
    endpoint with [prices]. *)
Definition serve (markets : json) (url : string)
    (q : list (string * json)) : answer :=
  if String.eqb url "https://api.binance.com/api/v3/coins/markets"
  then Response 200 (dumps markets)
  else Response 200 (dumps prices).

Definition calls (markets : json) (n : nat) : call :=
  {| checked := 1000; written := 1001; server := serve markets |}.

(** A coin whose price is not given in [usd]. *)
Definition coin_in_eur : json :=
  JDict [("id", JStr "bitcoin"); ("name", JStr "Bitcoin");
         ("current_price", JDict [("eur", JInt 39)]);
         ("market_cap", JDict [("usd", JInt 800)])].

(** The settings of the mail, and a mail server that accepts the login. *)
Definition getenv (name : string) : option string :=
  if String.eqb name "ALERT_EMAIL" then Some "alerts@example.org"
  else if String.eqb name "ALERT_PASSWORD" then Some "secret"
  else None.

Definition login (sender password : string) : bool := true.

(** Texts for the sample runs, right on what the samples hold: no string
    that is a number, names that are strings, currencies in ASCII letters
    and integers below 1000. *)
Definition float_of (s : string) : option pyfloat := None.

Definition str_of (v : json) : string :=
  match v with
  | JStr s => s
  | JInt n => int_repr n
  | _ => ""
  end.

Fixpoint upper (s : string) : string :=
  match s with
  | EmptyString => EmptyString
  | String c r =>
      String (if (97 <=? ord c) && (ord c <=? 122) then chr (ord c - 32)
              else c) (upper r)
  end.

Definition fixed (grouping : bool) (x : price) : string :=
  match x with
  | Value (JInt n) => int_repr n +:+ ".00"
  | _ => ""
  end.

End Market.

(** * Notions used in the proofs *)

(** ** Reading back an encoded value *)

(** A text after which a number or a literal ends: the end of the input or
    one of the delimiters the encoder writes after a value. *)
Definition delimited (rest : string) : bool :=
  match rest with
  | EmptyString => true
  | String c _ => (ord c =? 44) || (ord c =? 93) || (ord c =? 125)
  end.

(** The decoder reads back the text of [v], whatever delimited text
    follows it, given fuel for twice the length of the text. *)
Definition decodes (v : json) : Prop :=
  forall fuel rest,
    (2 * String.length (dumps v) < fuel)%nat ->
    delimited rest = true ->
    parse_value fuel (dumps v +:+ rest) = Some (v, rest).

(** ** Order of the keys *)

(** [k] is strictly below every key of [d]. *)
Definition below (k : string) (d : list (string * json)) : Prop :=
  Forall (fun kv => String.le k (fst kv) /\ k <> fst kv) d.

Fixpoint strictly_sorted (d : list (string * json)) : Prop :=
  match d with
  | [] => True
  | kv :: d' => below (fst kv) d' /\ strictly_sorted d'
  end.

(** ** A scanner for strings and brackets *)

(** Where a reader of the text of a dictionary stands: before its opening
    brace, outside or inside a string (or after a backslash in one) with
    [depth] brackets open inside the outermost braces, or after its closing
    brace. *)
Inductive scan_state : Type :=
| Start
| Outside (depth : nat)
| Inside (depth : nat)
| Escaped (depth : nat)
| Done.

Definition scan_step (st : scan_state) (c : ascii) : option scan_state :=
  let n := ord c in
  match st with
  | Start => if n =? 123 then Some (Outside 0) else None
  | Outside d =>
      if n =? 34 then Some (Inside d)
      else if n =? 92 then None
      else if (n =? 123) || (n =? 91) then Some (Outside (S d))
      else if (n =? 125) || (n =? 93) then
        match d with
        | O => Some Done
        | S d' => Some (Outside d')
        end
      else Some (Outside d)
  | Inside d =>
      if n =? 34 then Some (Outside d)
      else if n =? 92 then Some (Escaped d)
      else Some (Inside d)
  | Escaped d => Some (Inside d)
  | Done => None
  end.

Fixpoint scan (st : scan_state) (s : string) : option scan_state :=
  match s with
  | EmptyString => Some st
  | String c r =>
      match scan_step st c with
      | Some st' => scan st' r
      | None => None
      end
  end.

(** One reader is outside a string where the other is inside one. *)
Definition opposite (a b : scan_state) : Prop :=
  match a, b with
  | Outside _, Inside _ | Inside _, Outside _ => True
  | Done, Inside _ | Inside _, Done => True
  | _, _ => False
  end.

(** The world after [_save_to_cache(_get_cache_path(endpoint), data)]. *)
Definition with_endpoint_file (t : Q) (endpoint : string) (data : json)
    (w : world) : world :=
  {| fs := _save_to_cache t (fs w) (_get_cache_path endpoint) data;
     sent := sent w |}.

(** ** The characters of a digest *)

Definition is_lower_hex (c : ascii) : bool :=
  is_digit c || ((97 <=? ord c) && (ord c <=? 102)).

Fixpoint all_chars (P : ascii -> bool) (s : string) : bool :=
  match s with
  | EmptyString => true
  | String c r => P c && all_chars P r
  end.

(** * Properties *)

(** ** Values computed by CPython *)

Example md5_empty :
  MD5.hexdigest (encode "") = "d41d8cd98f00b204e9800998ecf8427e".
Proof. vm_compute. reflexivity. Qed.

Example md5_abc :
  MD5.hexdigest (encode "abc") = "900150983cd24fb0d6963f7d28e17f72".
Proof. vm_compute. reflexivity. Qed.

Example cache_file_markets :
  cache_file "coins/markets"
    (Some [("vs_currency", JStr "usd"); ("page", JInt 1)])
  = "data/cache/807aa3e558614494e6b7cbf8fc0115d1.json".
Proof. vm_compute. reflexivity. Qed.

Example dumps_nested :
  dumps (JList [JInt 1; JList [JBool true; JNull]; JInt (-20); JDict []])
  = "[1, [true, null], -20, {}]".
Proof. vm_compute. reflexivity. Qed.

Example loads_nested :
  loads " [1 ,[true, null],  -20, { } ] "
  = Some (JList [JInt 1; JList [JBool true; JNull]; JInt (-20); JDict []]).
Proof. vm_compute. reflexivity. Qed.

Example loads_leading_zero : loads "01" = None.
Proof. vm_compute. reflexivity. Qed.

Example loads_trailing_comma : loads "[1,]" = None.
Proof. vm_compute. reflexivity. Qed.

(** ** Texts *)

Lemma app_cons_s (x : ascii) (a b : string) :
  String x a +:+ b = String x (a +:+ b).
Proof. reflexivity. Qed.

Lemma app_nil_l_s (a : string) : "" +:+ a = a.
Proof. reflexivity. Qed.

Lemma app_assoc_s (a b c : string) : (a +:+ b) +:+ c = a +:+ b +:+ c.
Proof.
  induction a as [|x a IH]; [reflexivity|].
  rewrite !app_cons_s. by rewrite IH.
Qed.

Lemma app_nil_r_s (a : string) : a +:+ "" = a.
Proof.
  induction a as [|x a IH]; [reflexivity|].
  rewrite app_cons_s. by rewrite IH.
Qed.

Lemma length_app_s (a b : string) :
  String.length (a +:+ b) = (String.length a + String.length b)%nat.
Proof.
  induction a as [|x a IH]; [reflexivity|].
  rewrite app_cons_s. simpl. by rewrite IH.
Qed.

(** ** Decoding what the encoder wrote *)

(** The 256 characters, one by one. *)
Ltac each_char c := destruct c as [[] [] [] [] [] [] [] []].

Lemma scanstring_escape_char (c : ascii) (tail : string) :
  scanstring (escape_char c +:+ tail) = cons_char c (scanstring tail).
Proof.
  each_char c; reflexivity.
Qed.

Lemma scanstring_escape (s rest : string) :
  scanstring (escape s +:+ quote +:+ rest) = Some (s, rest).
Proof.
  induction s as [|c s IH]; [reflexivity|].
  cbn [escape]. rewrite app_assoc_s, scanstring_escape_char, IH. reflexivity.
Qed.

Lemma delimited_stops (rest : string) :
  delimited rest = true ->
  starts_with_digit rest = false /\ has_frac rest = false
  /\ has_exp rest = false.
Proof.
  destruct rest as [|c r]; simpl; [done|].
  unfold is_digit. intros H.
  repeat split; destruct (ord c =? 44) eqn:E1; destruct (ord c =? 93) eqn:E2;
    destruct (ord c =? 125) eqn:E3; try discriminate;
    repeat match goal with
           | |- context [ (?a <=? ?b) ] => destruct (Z.leb_spec a b)
           | |- context [ (?a =? ?b) ] => destruct (Z.eqb_spec a b)
           end; simpl; try reflexivity; try lia.
Qed.

Lemma span_digits_uint (u : Decimal.uint) (rest : string) :
  starts_with_digit rest = false ->
  span_digits (NilEmpty.string_of_uint u +:+ rest)
  = (NilEmpty.string_of_uint u, rest).
Proof.
  intros Hrest.
  induction u as [|u IH|u IH|u IH|u IH|u IH|u IH|u IH|u IH|u IH|u IH];
    cbn [NilEmpty.string_of_uint];
    try (rewrite app_cons_s; cbn [span_digits]; rewrite IH; reflexivity).
  rewrite app_nil_l_s. destruct rest as [|c r]; [reflexivity|].
  simpl in *. by rewrite Hrest.
Qed.

Lemma to_uint_not_D0 (p : positive) (d : Decimal.uint) :
  Pos.to_uint p <> Decimal.D0 d.
Proof.
  intros H.
  pose proof (Unsigned.to_of (Pos.to_uint p)) as E.
  rewrite Unsigned.of_to in E. simpl in E.
  destruct (Decimal.nzhead (Pos.to_uint p)) eqn:Hn;
    [ apply unorm_0 in Hn; rewrite Hn in E;
      by apply (Unsigned.to_uint_nonzero p)
    | by apply (nzhead_nonzero (Pos.to_uint p) u)
    | rewrite unorm_nzhead in E by (rewrite Hn; discriminate);
      apply (nzhead_nonzero (Pos.to_uint p) d); congruence .. ].
Qed.

(** The decimal text of a positive number: a digit from 1 to 9 first. *)
Lemma to_uint_text (p : positive) :
  exists c r,
    NilZero.string_of_uint (Pos.to_uint p) = String c r
    /\ NilEmpty.string_of_uint (Pos.to_uint p) = String c r
    /\ is_digit c = true /\ (ord c =? 48) = false /\ (ord c =? 45) = false.
Proof.
  pose proof (to_uint_not_D0 p) as H0.
  pose proof (Unsigned.to_uint_nonnil p) as Hn.
  unfold NilZero.string_of_uint.
  destruct (Pos.to_uint p) as [|u|u|u|u|u|u|u|u|u|u];
    [done|by destruct (H0 u)|..]; eexists _, _; repeat split.
Qed.

Lemma parse_number_repr (n : Z) (rest : string) :
  delimited rest = true ->
  parse_number (int_repr n +:+ rest) = Some (JInt n, rest).
Proof.
  intros Hd. destruct (delimited_stops rest Hd) as (Hs & Hf & He).
  unfold int_repr, parse_number.
  assert (Hm : match_integer (NilZero.string_of_int (Z.to_int n) +:+ rest)
               = Some (Z.to_int n, rest)).
  { destruct n as [|p|p]; cbn [Z.to_int NilZero.string_of_int].
    - reflexivity.
    - destruct (to_uint_text p) as (c & r & E0 & E & Hc & H48 & H45).
      rewrite E0, app_cons_s. unfold match_integer.
      rewrite H45, Hc, H48. rewrite <- app_cons_s, <- E.
      rewrite span_digits_uint by assumption.
      by rewrite NilEmpty.usu.
    - destruct (to_uint_text p) as (c & r & E0 & E & Hc & H48 & H45).
      rewrite E0, !app_cons_s. unfold match_integer.
      change (ord "-" =? 45) with true. cbv iota beta.
      rewrite Hc, H48. rewrite <- app_cons_s, <- E.
      rewrite span_digits_uint by assumption.
      by rewrite NilEmpty.usu. }
  rewrite Hm, Hf, He. simpl. by rewrite (DecimalZ.of_to n).
Qed.

(** A number is what [scan_once] reads when the text starts with a digit or
    a minus sign. *)
Lemma parse_value_number (fuel : nat) (c : ascii) (r : string) :
  is_digit c || (ord c =? 45) = true ->
  parse_value (S fuel) (String c r) = parse_number (String c r).
Proof.
  each_char c; try discriminate; reflexivity.
Qed.

Lemma int_repr_text (n : Z) :
  exists c r, int_repr n = String c r /\ is_digit c || (ord c =? 45) = true.
Proof.
  unfold int_repr. destruct n as [|p|p]; cbn [Z.to_int NilZero.string_of_int].
  - by eexists _, _.
  - destruct (to_uint_text p) as (c & r & E0 & _ & Hc & _).
    exists c, r. by rewrite Hc.
  - by eexists _, _.
Qed.

Lemma parse_value_int (fuel : nat) (n : Z) (rest : string) :
  delimited rest = true ->
  parse_value (S fuel) (int_repr n +:+ rest) = Some (JInt n, rest).
Proof.
  intros Hd. rewrite <- (parse_number_repr n rest Hd).
  destruct (int_repr_text n) as (c & r & -> & Hc).
  rewrite app_cons_s. by apply parse_value_number.
Qed.

(** Induction over a value and the values inside it. *)
Section JsonInduction.

Variable P : json -> Prop.
Hypothesis HNull : P JNull.
Hypothesis HBool : forall b, P (JBool b).
Hypothesis HInt : forall n, P (JInt n).
Hypothesis HStr : forall s, P (JStr s).
Hypothesis HList : forall l, Forall P l -> P (JList l).
Hypothesis HDict : forall d, Forall (fun kv => P (snd kv)) d -> P (JDict d).

Fixpoint json_nested_ind (v : json) : P v :=
  match v with
  | JNull => HNull
  | JBool b => HBool b
  | JInt n => HInt n
  | JStr s => HStr s
  | JList l =>
      HList l
        ((fix go (l : list json) : Forall P l :=
            match l with
            | [] => @List.Forall_nil _ P
            | x :: l' => @List.Forall_cons _ P x l' (json_nested_ind x) (go l')
            end) l)
  | JDict d =>
      HDict d
        ((fix go (d : list (string * json)) : Forall (fun kv => P (snd kv)) d :=
            match d with
            | [] => @List.Forall_nil _ _
            | kv :: d' =>
                @List.Forall_cons _ (fun kv => P (snd kv)) kv d'
                  (json_nested_ind (snd kv)) (go d')
            end) d)
  end.

End JsonInduction.

(** The encoder starts a value with a character that is neither white
    space nor a closing bracket. *)
Lemma dumps_start (v : json) :
  exists c t,
    dumps v = String c t /\ is_ws c = false /\ (ord c =? 93) = false.
Proof.
  destruct v as [|[]|n|s|l|d]; try (by eexists _, _).
  destruct (int_repr_text n) as (c & r & E & Hc).
  exists c, r. split; [exact E|].
  clear E. each_char c; try discriminate; done.
Qed.

Lemma skip_ws_dumps (v : json) (r : string) :
  skip_ws (dumps v +:+ r) = dumps v +:+ r.
Proof.
  destruct (dumps_start v) as (c & t & -> & Hc & _).
  rewrite app_cons_s. simpl. by rewrite Hc.
Qed.

Lemma distinct_app_cons (acc : list string) (k : string) (l : list string) :
  distinct (acc ++ k :: l) = true ->
  existsb (String.eqb k) acc = false /\ distinct ((acc ++ [k]) ++ l) = true.
Proof.
  induction acc as [|a acc IH]; simpl.
  - intros H. by split.
  - rewrite !andb_true_iff, !negb_true_iff.
    rewrite <- !app_assoc. simpl. rewrite !existsb_app. simpl.
    intros [Ha Hd]. destruct (IH Hd) as [Hk Hd'].
    rewrite <- app_assoc in Hd'. simpl in Hd'.
    apply orb_false_iff in Ha as [Ha1 Ha2].
    apply orb_false_iff in Ha2 as [Ha2 Ha3].
    rewrite (String.eqb_sym k a), Ha2, Hk, Ha1, Ha3. by repeat split.
Qed.

Lemma dict_set_fresh (k : string) (v : json) (acc : list (string * json)) :
  existsb (String.eqb k) (keys acc) = false ->
  dict_set k v acc = acc ++ [(k, v)].
Proof.
  induction acc as [|[k' v'] acc IH]; simpl; [done|].
  intros H. apply orb_false_iff in H as [H1 H2].
  rewrite H1. by rewrite IH.
Qed.

Lemma dict_of_pairs_distinct (d : list (string * json)) :
  distinct (keys d) = true -> dict_of_pairs d = d.
Proof.
  unfold dict_of_pairs.
  enough (H : forall acc, distinct (keys (acc ++ d)) = true ->
              fold_left (fun d kv => dict_set (fst kv) (snd kv) d) d acc
              = acc ++ d) by apply (H []).
  induction d as [|[k v] d IH]; intros acc Hd; simpl.
  - by rewrite app_nil_r.
  - unfold keys in Hd. rewrite map_app in Hd. simpl in Hd.
    apply distinct_app_cons in Hd as [Hk Hd].
    rewrite dict_set_fresh by exact Hk.
    rewrite IH.
    + by rewrite <- app_assoc.
    + unfold keys. by rewrite !map_app.
Qed.

Lemma concat_cons2 (sep x y : string) (l : list string) :
  String.concat sep (x :: y :: l) = x +:+ sep +:+ String.concat sep (y :: l).
Proof. reflexivity. Qed.

Lemma skip_ws_concat_dumps (y : json) (l : list json) (r : string) :
  skip_ws (String.concat ", " (map dumps (y :: l)) +:+ r)
  = String.concat ", " (map dumps (y :: l)) +:+ r.
Proof.
  destruct l as [|z l]; simpl map.
  - cbn [String.concat]. apply skip_ws_dumps.
  - rewrite concat_cons2, app_assoc_s. apply skip_ws_dumps.
Qed.

Lemma parse_elements_next (f : nat) (s : string) (acc : list json)
    (v : json) (r : string) :
  parse_value f s = Some (v, ", " +:+ r) ->
  parse_elements (S f) s acc = parse_elements f (skip_ws r) (acc ++ [v]).
Proof.
  intros H. cbn [parse_elements]. rewrite H. reflexivity.
Qed.

Lemma parse_elements_last (f : nat) (s : string) (acc : list json)
    (v : json) (r : string) :
  parse_value f s = Some (v, "]" +:+ r) ->
  parse_elements (S f) s acc = Some (JList (acc ++ [v]), r).
Proof.
  intros H. cbn [parse_elements]. rewrite H. reflexivity.
Qed.

Lemma parse_elements_dumps (l : list json) :
  Forall decodes l ->
  forall x fuel acc rest,
    decodes x ->
    (2 * String.length (String.concat ", " (map dumps (x :: l))) + 1 < fuel)%nat ->
    parse_elements fuel
      (String.concat ", " (map dumps (x :: l)) +:+ "]" +:+ rest) acc
    = Some (JList (acc ++ x :: l), rest).
Proof.
  induction 1 as [|y l Hy Hall IH]; intros x fuel acc rest Hx Hfuel;
    (destruct fuel as [|f]; [lia|]).
  - simpl map in *. cbn [String.concat] in *.
    apply parse_elements_last. apply Hx; [lia|reflexivity].
  - change (map dumps (x :: y :: l)) with (dumps x :: map dumps (y :: l)) in *.
    change (dumps x :: map dumps (y :: l))
      with (dumps x :: dumps y :: map dumps l) in Hfuel.
    rewrite concat_cons2, !length_app_s in Hfuel.
    change (String.length ", ") with 2%nat in Hfuel.
    change (dumps y :: map dumps l) with (map dumps (y :: l)) in Hfuel.
    change (String.concat ", " (dumps x :: map dumps (y :: l)))
      with (dumps x +:+ ", " +:+ String.concat ", " (map dumps (y :: l))).
    rewrite !app_assoc_s.
    rewrite (parse_elements_next f _ acc x
               (String.concat ", " (map dumps (y :: l)) +:+ "]" +:+ rest)).
    + rewrite skip_ws_concat_dumps. rewrite IH; [|assumption|lia].
      by rewrite <- app_assoc.
    + apply Hx; [lia|reflexivity].
Qed.

Lemma parse_members_next (f : nat) (s : string) (acc : list (string * json))
    (k : string) (v : json) (t r : string) :
  scanstring s = Some (k, ": " +:+ t) ->
  parse_value f (skip_ws t) = Some (v, ", " +:+ quote +:+ r) ->
  parse_members (S f) s acc = parse_members f r (acc ++ [(k, v)]).
Proof.
  intros Hk Hv. cbn [parse_members]. rewrite Hk.
  change (skip_ws (": " +:+ t)) with (String ":" (String " " t)).
  change (ord ":" =? 58) with true. cbv iota.
  change (skip_ws (String " " t)) with (skip_ws t).
  rewrite Hv. reflexivity.
Qed.

Lemma parse_members_last (f : nat) (s : string) (acc : list (string * json))
    (k : string) (v : json) (t r : string) :
  scanstring s = Some (k, ": " +:+ t) ->
  parse_value f (skip_ws t) = Some (v, "}" +:+ r) ->
  parse_members (S f) s acc = Some (JDict (dict_of_pairs (acc ++ [(k, v)])), r).
Proof.
  intros Hk Hv. cbn [parse_members]. rewrite Hk.
  change (skip_ws (": " +:+ t)) with (String ":" (String " " t)).
  change (ord ":" =? 58) with true. cbv iota.
  change (skip_ws (String " " t)) with (skip_ws t).
  rewrite Hv. reflexivity.
Qed.

(** The text of the items of a dictionary after the opening quote of the
    first key. *)
Lemma items_text (kv : string * json) (d : list (string * json)) :
  String.concat ", " (map (dump_item dumps) (kv :: d))
  = quote +:+ escape (fst kv) +:+ quote +:+ ": " +:+ dumps (snd kv)
    +:+ match d with
        | [] => ""
        | _ :: _ => ", " +:+ String.concat ", " (map (dump_item dumps) d)
        end.
Proof.
  destruct d as [|kv' d]; simpl map.
  - cbn [String.concat]. unfold dump_item, encode_basestring_ascii.
    by rewrite !app_assoc_s, app_nil_r_s.
  - rewrite concat_cons2. unfold dump_item at 1, encode_basestring_ascii.
    by rewrite !app_assoc_s.
Qed.

Lemma parse_members_dumps (d : list (string * json)) :
  Forall (fun kv => decodes (snd kv)) d ->
  forall kv fuel acc rest,
    decodes (snd kv) ->
    (2 * String.length (String.concat ", " (map (dump_item dumps) (kv :: d)))
     + 1 < fuel)%nat ->
    parse_members fuel
      (escape (fst kv) +:+ quote +:+ ": " +:+ dumps (snd kv)
       +:+ match d with
           | [] => ""
           | _ :: _ => ", " +:+ String.concat ", " (map (dump_item dumps) d)
           end +:+ "}" +:+ rest) acc
    = Some (JDict (dict_of_pairs (acc ++ kv :: d)), rest).
Proof.
  induction 1 as [|kv' d Hy Hall IH]; intros [k v] fuel acc rest Hx Hfuel;
    (destruct fuel as [|f]; [lia|]);
    rewrite items_text, !length_app_s in Hfuel; cbn [fst snd] in *.
  - rewrite app_nil_l_s.
    apply (parse_members_last f _ acc k v (dumps v +:+ "}" +:+ rest) rest).
    + apply scanstring_escape.
    + rewrite skip_ws_dumps. apply Hx; [lia|reflexivity].
  - rewrite items_text in *. rewrite !length_app_s in Hfuel.
    change (String.length ", ") with 2%nat in Hfuel.
    rewrite !app_assoc_s.
    etransitivity.
    { eapply parse_members_next.
      - apply scanstring_escape.
      - rewrite skip_ws_dumps. apply Hx; [lia|reflexivity]. }
    rewrite IH; [by rewrite <- app_assoc|assumption|].
    rewrite items_text, !length_app_s. lia.
Qed.

Lemma forallb_Forall_decodes (l : list json) :
  Forall (fun v => well_formed v = true -> decodes v) l ->
  forallb well_formed l = true -> Forall decodes l.
Proof.
  induction 1 as [|x l Hx _ IH]; simpl; [constructor|].
  intros [Hw Hl]%andb_true_iff. constructor; auto.
Qed.

Lemma forallb_Forall_decodes_snd (d : list (string * json)) :
  Forall (fun kv => well_formed (snd kv) = true -> decodes (snd kv)) d ->
  forallb (fun kv => well_formed (snd kv)) d = true ->
  Forall (fun kv => decodes (snd kv)) d.
Proof.
  induction 1 as [|x l Hx _ IH]; simpl; [constructor|].
  intros [Hw Hl]%andb_true_iff. constructor; auto.
Qed.

Lemma string_text (s rest : string) :
  encode_basestring_ascii s +:+ rest
  = String "034" (escape s +:+ quote +:+ rest).
Proof.
  unfold encode_basestring_ascii, quote at 1.
  by rewrite !app_cons_s, app_nil_l_s, app_assoc_s.
Qed.

Lemma list_text (l : list json) (rest : string) :
  dumps (JList l) +:+ rest
  = String "[" (String.concat ", " (map dumps l) +:+ "]" +:+ rest).
Proof.
  cbn [dumps]. by rewrite !app_cons_s, app_nil_l_s, app_assoc_s.
Qed.

Lemma dict_text (d : list (string * json)) (rest : string) :
  dumps (JDict d) +:+ rest
  = String "{"
      (String.concat ", " (map (dump_item dumps) d) +:+ "}" +:+ rest).
Proof.
  cbn [dumps]. by rewrite !app_cons_s, app_nil_l_s, app_assoc_s.
Qed.

Lemma list_length (l : list json) :
  String.length (dumps (JList l))
  = (String.length (String.concat ", " (map dumps l)) + 2)%nat.
Proof.
  rewrite <- (app_nil_r_s (dumps (JList l))), list_text.
  rewrite app_nil_r_s. cbn [String.length]. rewrite length_app_s.
  simpl String.length. lia.
Qed.

Lemma dict_length (d : list (string * json)) :
  String.length (dumps (JDict d))
  = (String.length (String.concat ", " (map (dump_item dumps) d)) + 2)%nat.
Proof.
  rewrite <- (app_nil_r_s (dumps (JDict d))), dict_text.
  rewrite app_nil_r_s. cbn [String.length]. rewrite length_app_s.
  simpl String.length. lia.
Qed.

Lemma parse_value_list (f : nat) (c : ascii) (t : string) :
  is_ws c = false -> (ord c =? 93) = false ->
  parse_value (S f) (String "[" (String c t))
  = parse_elements f (String c t) [].
Proof.
  intros Hw Hc. cbn [parse_value].
  change (ord "[" =? 34) with false. change (ord "[" =? 123) with false.
  change (ord "[" =? 91) with true. cbv iota.
  cbn [skip_ws]. by rewrite Hw, Hc.
Qed.

Lemma parse_value_dict (f : nat) (t : string) :
  parse_value (S f) (String "{" (String "034" t)) = parse_members f t [].
Proof. reflexivity. Qed.

Lemma well_formed_decodes (v : json) : well_formed v = true -> decodes v.
Proof.
  induction v as [|b|n|s|l IH|d IH] using json_nested_ind; intros Hwf;
    intros fuel rest Hfuel Hrest; (destruct fuel as [|f]; [lia|]).
  - reflexivity.
  - destruct b; reflexivity.
  - by apply parse_value_int.
  - cbn [dumps]. rewrite string_text.
    cbn [parse_value]. change (ord "034" =? 34) with true. cbv iota.
    by rewrite scanstring_escape.
  - cbn [well_formed] in Hwf.
    pose proof (forallb_Forall_decodes l IH Hwf) as Hall.
    rewrite list_text. rewrite list_length in Hfuel.
    destruct l as [|x l]; [reflexivity|].
    apply Forall_cons in Hall as [Hx Hall].
    pose proof (parse_elements_dumps l Hall x f [] rest Hx) as Hp.
    destruct (dumps_start x) as (c & t & Ex & Hw & Hc).
    assert (exists t', String.concat ", " (map dumps (x :: l)) = String c t')
      as [t' Et'].
    { destruct l as [|y l]; simpl map.
      - cbn [String.concat]. eauto.
      - rewrite concat_cons2, Ex, app_cons_s. eauto. }
    rewrite Et', app_cons_s in *.
    rewrite parse_value_list by assumption. apply Hp. lia.
  - cbn [well_formed] in Hwf. apply andb_true_iff in Hwf as [Hk Hwf].
    pose proof (forallb_Forall_decodes_snd d IH Hwf) as Hall.
    rewrite dict_text. rewrite dict_length in Hfuel.
    destruct d as [|kv d]; [reflexivity|].
    apply Forall_cons in Hall as [Hx Hall].
    pose proof (parse_members_dumps d Hall kv f [] rest Hx) as Hp.
    rewrite app_nil_l, (dict_of_pairs_distinct _ Hk) in Hp.
    rewrite items_text. unfold quote at 1.
    rewrite !app_assoc_s, app_cons_s, app_nil_l_s.
    rewrite parse_value_dict. apply Hp. lia.
Qed.

Lemma loads_dumps (v : json) : well_formed v = true -> loads (dumps v) = Some v.
Proof.
  intros Hwf. unfold loads, decode.
  rewrite <- (app_nil_r_s (dumps v)) at 2. rewrite skip_ws_dumps.
  rewrite (well_formed_decodes v Hwf); [reflexivity|lia|reflexivity].
Qed.

(** ** Round trip through the cache *)


(** ** The fuel of the decoder *)

Lemma skip_ws_length (s : string) :
  (String.length (skip_ws s) <= String.length s)%nat.
Proof.
  induction s as [|c s IH]; simpl; [lia|].
  destruct (is_ws c); simpl; lia.
Qed.

Lemma cons_char_length (c : ascii) (o : option (string * string))
    (t r : string) (n : nat) :
  cons_char c o = Some (t, r) ->
  (forall t' r', o = Some (t', r') -> (String.length r' < n)%nat) ->
  (String.length r < n)%nat.
Proof.
  destruct o as [[t' r']|]; simpl; [|done]. intros [= <- <-] H. eauto.
Qed.

Lemma scanstring_length (s t r : string) :
  scanstring s = Some (t, r) -> (String.length r < String.length s)%nat.
Proof.
  remember (String.length s) as n eqn:En.
  revert s t r En. induction (lt_wf n) as [n _ IH]. intros s t r -> H.
  destruct s as [|c s]; [done|]. cbn [scanstring] in H.
  repeat case_match; simplify_eq; simpl; try lia;
    (eapply cons_char_length; [eassumption|]);
    intros t' r' E; eapply IH in E; try reflexivity; simpl in *; lia.
Qed.

Lemma strip_prefix_length (p s r : string) :
  strip_prefix p s = Some r ->
  String.length s = (String.length p + String.length r)%nat.
Proof.
  revert s. induction p as [|a p IH]; intros [|b s] H; simpl in *;
    simplify_eq; try done.
  destruct (Ascii.eqb a b); [|done]. by rewrite (IH s H).
Qed.

Lemma span_digits_length (s ds r : string) :
  span_digits s = (ds, r) ->
  String.length s = (String.length ds + String.length r)%nat.
Proof.
  revert ds r. induction s as [|c s IH]; intros ds r H; simpl in *.
  - by simplify_eq.
  - destruct (is_digit c); [|by simplify_eq].
    destruct (span_digits s) as [ds' r'] eqn:E. simplify_eq.
    simpl. by rewrite (IH ds' r).
Qed.

Lemma span_digits_head (c : ascii) (s ds r : string) :
  is_digit c = true -> span_digits (String c s) = (ds, r) ->
  (String.length r <= String.length s)%nat.
Proof.
  intros Hc. cbn [span_digits]. rewrite Hc.
  destruct (span_digits s) as [ds' r'] eqn:E. intros [= <- <-].
  apply span_digits_length in E. lia.
Qed.

Lemma match_integer_length (s r : string) (i : Decimal.signed_int) :
  match_integer s = Some (i, r) -> (String.length r < String.length s)%nat.
Proof.
  unfold match_integer. intros H.
  repeat case_match; simplify_eq;
    repeat match goal with
           | D : is_digit ?c = true, E : span_digits (String ?c _) = _ |- _ =>
               apply (span_digits_head _ _ _ _ D) in E
           end; simpl in *; lia.
Qed.

Lemma parse_literal_length (s r : string) (v : json) :
  parse_literal s = Some (v, r) -> (String.length r < String.length s)%nat.
Proof.
  unfold parse_literal, parse_number. intros H.
  repeat case_match; simplify_eq;
    repeat match goal with
           | E : strip_prefix _ _ = _ |- _ =>
               apply strip_prefix_length in E; simpl in E
           | E : match_integer _ = _ |- _ => apply match_integer_length in E
           end; lia.
Qed.

(** More fuel changes nothing once the decoder has a result. *)
Lemma parse_fuel_mono (f : nat) :
  (forall f' s x, parse_value f s = Some x -> (f <= f')%nat ->
                  parse_value f' s = Some x)
  /\ (forall f' s acc x, parse_elements f s acc = Some x -> (f <= f')%nat ->
                         parse_elements f' s acc = Some x)
  /\ (forall f' s acc x, parse_members f s acc = Some x -> (f <= f')%nat ->
                         parse_members f' s acc = Some x).
Proof.
  induction f as [|f (IHv & IHe & IHm)]; [done|].
  split; [|split]; intros [|f'] s; intros; try lia.
  - destruct s as [|c s]; [done|]. cbn [parse_value] in *.
    repeat case_match; simplify_eq; try done;
      first [apply IHe | apply IHm]; try done; lia.
  - cbn [parse_elements] in *.
    destruct (parse_value f s) as [[v r]|] eqn:E; [|done].
    rewrite (IHv f' s (v, r) E) by lia.
    repeat case_match; simplify_eq; try done. apply IHe; [done|lia].
  - cbn [parse_members] in *.
    destruct (scanstring s) as [[k r]|]; [|done].
    destruct (skip_ws r) as [|c r1]; [done|].
    destruct (ord c =? 58); [|done].
    destruct (parse_value f (skip_ws r1)) as [[v r2]|] eqn:E; [|done].
    rewrite (IHv f' _ (v, r2) E) by lia.
    repeat case_match; simplify_eq; try done. apply IHm; [done|lia].
Qed.


Lemma parse_value_mono (f f' : nat) (s : string) (x : json * string) :
  parse_value f s = Some x -> (f <= f')%nat -> parse_value f' s = Some x.
Proof. apply parse_fuel_mono. Qed.

Lemma parse_elements_mono (f f' : nat) (s : string) (acc : list json)
    (x : json * string) :
  parse_elements f s acc = Some x -> (f <= f')%nat ->
  parse_elements f' s acc = Some x.
Proof. apply parse_fuel_mono. Qed.

Lemma parse_members_mono (f f' : nat) (s : string)
    (acc : list (string * json)) (x : json * string) :
  parse_members f s acc = Some x -> (f <= f')%nat ->
  parse_members f' s acc = Some x.
Proof. apply parse_fuel_mono. Qed.

(** A result of the decoder is reached with fuel for twice the text read. *)
Lemma parse_fuel_bound (f : nat) :
  (forall s v r,
      parse_value f s = Some (v, r) ->
      (String.length r < String.length s)%nat
      /\ parse_value (2 * (String.length s - String.length r) - 1) s
         = Some (v, r))
  /\ (forall s acc v r,
      parse_elements f s acc = Some (v, r) ->
      (String.length r + 2 <= String.length s)%nat
      /\ parse_elements (2 * (String.length s - String.length r) - 2) s acc
         = Some (v, r))
  /\ (forall s acc v r,
      parse_members f s acc = Some (v, r) ->
      (String.length r + 2 <= String.length s)%nat
      /\ parse_members (2 * (String.length s - String.length r) - 2) s acc
         = Some (v, r)).
Proof.
  induction f as [|f (IHv & IHe & IHm)]; [done|].
  split; [|split].
  - intros [|c s] v r H; [done|]. cbn [parse_value] in H.
    cbn [String.length].
    destruct (ord c =? 34) eqn:E34.
    { destruct (scanstring s) as [[t rest]|] eqn:Es; [|done].
      injection H as <- <-. pose proof (scanstring_length _ _ _ Es).
      split; [lia|]. apply (parse_value_mono 1); [|lia].
      cbn [parse_value]. by rewrite E34, Es. }
    destruct (ord c =? 123) eqn:E123.
    { pose proof (skip_ws_length s) as Hs.
      destruct (skip_ws s) as [|c1 r1] eqn:Ew; [done|].
      cbn [String.length] in Hs.
      destruct (ord c1 =? 125) eqn:E125.
      { injection H as <- <-. split; [lia|].
        apply (parse_value_mono 1); [|lia].
        cbn [parse_value]. by rewrite E34, E123, Ew, E125. }
      destruct (ord c1 =? 34) eqn:E34'; [|done].
      apply IHm in H as [Hl H]. split; [lia|].
      apply (parse_value_mono
               (S (2 * (String.length r1 - String.length r) - 2))); [|lia].
      cbn [parse_value]. by rewrite E34, E123, Ew, E125, E34'. }
    destruct (ord c =? 91) eqn:E91.
    { pose proof (skip_ws_length s) as Hs.
      destruct (skip_ws s) as [|c1 r1] eqn:Ew; [done|].
      cbn [String.length] in Hs.
      destruct (ord c1 =? 93) eqn:E93.
      { injection H as <- <-. split; [lia|].
        apply (parse_value_mono 1); [|lia].
        cbn [parse_value]. by rewrite E34, E123, E91, Ew, E93. }
      apply IHe in H as [Hl H]. cbn [String.length] in Hl, H.
      split; [lia|].
      apply (parse_value_mono
               (S (2 * (S (String.length r1) - String.length r) - 2)));
        [|lia].
      cbn [parse_value]. by rewrite E34, E123, E91, Ew, E93. }
    pose proof (parse_literal_length _ _ _ H) as Hl.
    cbn [String.length] in Hl. split; [lia|].
    apply (parse_value_mono 1); [|lia].
    cbn [parse_value]. by rewrite E34, E123, E91.
  - intros s acc v r H. cbn [parse_elements] in H.
    destruct (parse_value f s) as [[x r0]|] eqn:Ex; [|done].
    apply IHv in Ex as [Hx Ex].
    pose proof (skip_ws_length r0) as Hs.
    destruct (skip_ws r0) as [|c r1] eqn:Ew; [done|].
    cbn [String.length] in Hs.
    destruct (ord c =? 93) eqn:E93.
    { injection H as <- <-. split; [lia|].
      apply (parse_elements_mono
               (S (2 * (String.length s - String.length r0) - 1))); [|lia].
      cbn [parse_elements]. by rewrite Ex, Ew, E93. }
    destruct (ord c =? 44) eqn:E44; [|done].
    apply IHe in H as [Hl H].
    pose proof (skip_ws_length r1) as Hs1.
    split; [lia|].
    set (g := Nat.max (2 * (String.length s - String.length r0) - 1)
                      (2 * (String.length (skip_ws r1) - String.length r) - 2)).
    apply (parse_elements_mono (S g)); [|lia].
    cbn [parse_elements].
    rewrite (parse_value_mono _ g _ _ Ex) by lia.
    rewrite Ew, E93, E44. apply (parse_elements_mono _ g _ _ _ H). lia.
  - intros s acc v r H. cbn [parse_members] in H.
    destruct (scanstring s) as [[k r0]|] eqn:Ek; [|done].
    pose proof (scanstring_length _ _ _ Ek) as Hk.
    pose proof (skip_ws_length r0) as Hs0.
    destruct (skip_ws r0) as [|c r1] eqn:Ew0; [done|].
    cbn [String.length] in Hs0.
    destruct (ord c =? 58) eqn:E58; [|done].
    pose proof (skip_ws_length r1) as Hs1.
    destruct (parse_value f (skip_ws r1)) as [[x r2]|] eqn:Ex; [|done].
    apply IHv in Ex as [Hx Ex].
    pose proof (skip_ws_length r2) as Hs2.
    destruct (skip_ws r2) as [|c2 r3] eqn:Ew2; [done|].
    cbn [String.length] in Hs2.
    destruct (ord c2 =? 125) eqn:E125.
    { injection H as <- <-. split; [lia|].
      apply (parse_members_mono
               (S (2 * (String.length (skip_ws r1) - String.length r2) - 1)));
        [|lia].
      cbn [parse_members]. by rewrite Ek, Ew0, E58, Ex, Ew2, E125. }
    destruct (ord c2 =? 44) eqn:E44; [|done].
    pose proof (skip_ws_length r3) as Hs3.
    destruct (skip_ws r3) as [|c3 r4] eqn:Ew3; [done|].
    cbn [String.length] in Hs3.
    destruct (ord c3 =? 34) eqn:E34; [|done].
    apply IHm in H as [Hl H]. split; [lia|].
    set (g := Nat.max (2 * (String.length (skip_ws r1) - String.length r2) - 1)
                      (2 * (String.length r4 - String.length r) - 2)).
    apply (parse_members_mono (S g)); [|lia].
    cbn [parse_members]. rewrite Ek, Ew0, E58.
    rewrite (parse_value_mono _ g _ _ Ex) by lia.
    rewrite Ew2, E125, E44, Ew3, E34.
    apply (parse_members_mono _ g _ _ _ H). lia.
Qed.

(** The result of the decoder does not depend on the fuel from twice the
    length of the text on: [loads] never fails for lack of fuel. *)
Lemma decode_fuel_enough (s : string) (fuel : nat) :
  (2 * String.length s + 2 <= fuel)%nat -> decode fuel s = loads s.
Proof.
  intros Hf. unfold loads, decode.
  pose proof (skip_ws_length s) as Hs.
  destruct (parse_value fuel (skip_ws s)) as [[v r]|] eqn:E.
  - apply parse_fuel_bound in E as [Hl E].
    by rewrite (parse_value_mono _ (2 * String.length s + 2) _ _ E) by lia.
  - destruct (parse_value (2 * String.length s + 2) (skip_ws s))
      as [x|] eqn:E'; [|done].
    rewrite (parse_value_mono _ fuel _ _ E') in E by lia. done.
Qed.

(** ** Sorted items *)

Lemma dict_get_insert_item (k : string) (kv : string * json)
    (d : list (string * json)) :
  dict_get k (insert_item kv d)
  = if String.eqb k (fst kv) then Some (snd kv) else dict_get k d.
Proof.
  induction d as [|[k' v'] d IH]; destruct kv as [k0 v0]; simpl in *.
  - reflexivity.
  - destruct (String.leb k0 k') eqn:Hle; simpl; [reflexivity|].
    rewrite IH. destruct (String.eqb_spec k k0) as [->|Hne]; [|reflexivity].
    destruct (String.eqb_spec k0 k') as [->|Hne']; [|reflexivity].
    pose proof (reflexivity (R := String.le) k') as Hr.
    unfold String.le in Hr. rewrite Hle in Hr. done.
Qed.

Lemma dict_get_sorted_items (k : string) (d : list (string * json)) :
  dict_get k (sorted_items d) = dict_get k d.
Proof.
  induction d as [|[k' v'] d IH]; simpl; [reflexivity|].
  by rewrite dict_get_insert_item, IH.
Qed.

Lemma keys_insert_item (k : string) (kv : string * json)
    (d : list (string * json)) :
  existsb (String.eqb k) (keys (insert_item kv d))
  = String.eqb k (fst kv) || existsb (String.eqb k) (keys d).
Proof.
  induction d as [|kv' d IH]; simpl; [reflexivity|].
  destruct (String.leb (fst kv) (fst kv')); simpl; [reflexivity|].
  rewrite IH. by destruct (String.eqb k (fst kv)), (String.eqb k (fst kv')).
Qed.

Lemma keys_sorted_items (k : string) (d : list (string * json)) :
  existsb (String.eqb k) (keys (sorted_items d))
  = existsb (String.eqb k) (keys d).
Proof.
  induction d as [|kv d IH]; simpl; [reflexivity|].
  by rewrite keys_insert_item, IH.
Qed.

Lemma below_insert_item (k : string) (kv : string * json)
    (d : list (string * json)) :
  String.le k (fst kv) -> k <> fst kv -> below k d ->
  below k (insert_item kv d).
Proof.
  intros Hle Hne. unfold below.
  induction 1 as [|kv' d Hkv' Hd IH]; simpl.
  - apply List.Forall_cons; [done|apply List.Forall_nil].
  - destruct (String.leb (fst kv) (fst kv')).
    + apply List.Forall_cons; [done|]. by apply List.Forall_cons.
    + by apply List.Forall_cons.
Qed.

Lemma below_trans (k k' : string) (d : list (string * json)) :
  String.le k k' -> below k' d -> below k d.
Proof.
  intros Hle Hb. unfold below in *. eapply List.Forall_impl; [|exact Hb].
  intros kv [H1 H2]. split.
  - by transitivity k'.
  - intros ->. apply H2. by apply (anti_symm String.le).
Qed.

Lemma strictly_sorted_insert_item (kv : string * json)
    (d : list (string * json)) :
  existsb (String.eqb (fst kv)) (keys d) = false ->
  strictly_sorted d -> strictly_sorted (insert_item kv d).
Proof.
  induction d as [|kv' d IH]; simpl.
  { intros _ _. split; [apply List.Forall_nil|done]. }
  intros [Hne Hnotin]%orb_false_iff [Hb Hs].
  apply String.eqb_neq in Hne.
  destruct (String.leb (fst kv) (fst kv')) eqn:Hle; simpl.
  - assert (Hle' : String.le (fst kv) (fst kv')).
    { unfold String.le. by rewrite Hle. }
    split; [|done]. apply List.Forall_cons; [done|].
    by apply below_trans with (fst kv').
  - split; [|by apply IH].
    apply below_insert_item; [|done|done].
    destruct (total String.le (fst kv) (fst kv')) as [H|H]; [|done].
    unfold String.le in H. rewrite Hle in H. done.
Qed.

Lemma strictly_sorted_sorted_items (d : list (string * json)) :
  distinct (keys d) = true -> strictly_sorted (sorted_items d).
Proof.
  induction d as [|kv d IH]; simpl; [done|].
  intros [Hk Hd]%andb_true_iff. apply negb_true_iff in Hk.
  apply strictly_sorted_insert_item; [|by apply IH].
  by rewrite keys_sorted_items.
Qed.

Lemma below_dict_get (k : string) (d : list (string * json)) :
  below k d -> dict_get k d = None.
Proof.
  induction 1 as [|[k' v'] d [_ Hne] _ IH]; simpl in *; [reflexivity|].
  by destruct (String.eqb_spec k k').
Qed.

(** Two strictly sorted lists of items with the same lookups are equal. *)
Lemma strictly_sorted_unique (d1 d2 : list (string * json)) :
  strictly_sorted d1 -> strictly_sorted d2 ->
  (forall k, dict_get k d1 = dict_get k d2) ->
  d1 = d2.
Proof.
  revert d2. induction d1 as [|[k1 v1] d1 IH]; intros [|[k2 v2] d2];
    simpl; intros S1 S2 Heq.
  - reflexivity.
  - specialize (Heq k2). by rewrite String.eqb_refl in Heq.
  - specialize (Heq k1). by rewrite String.eqb_refl in Heq.
  - destruct S1 as [Hb1 Hs1], S2 as [Hb2 Hs2].
    assert (k1 = k2) as <-.
    { pose proof (Heq k1) as E1. pose proof (Heq k2) as E2.
      rewrite String.eqb_refl in E1, E2.
      destruct (String.eqb_spec k1 k2) as [|Hne]; [done|].
      destruct (String.eqb_spec k2 k1) as [|_]; [done|].
      symmetry in E1.
      destruct (total String.le k1 k2) as [Hle|Hle].
      - rewrite (below_dict_get k1 d2) in E1; [done|].
        apply below_trans with k2; done.
      - rewrite (below_dict_get k2 d1) in E2; [done|].
        apply below_trans with k1; done. }
    pose proof (Heq k1) as E. rewrite String.eqb_refl in E.
    injection E as <-. f_equal. apply IH; [done|done|].
    intros k. specialize (Heq k).
    destruct (String.eqb_spec k k1) as [Ek|_]; [|done].
    subst k. by rewrite !below_dict_get.
Qed.

Lemma sorted_items_same (d1 d2 : list (string * json)) :
  distinct (keys d1) = true -> distinct (keys d2) = true ->
  (forall k, dict_get k d1 = dict_get k d2) ->
  sorted_items d1 = sorted_items d2.
Proof.
  intros H1 H2 Heq.
  apply strictly_sorted_unique; try by apply strictly_sorted_sorted_items.
  intros k. by rewrite !dict_get_sorted_items.
Qed.

(** ** The text of a dictionary under the scanner *)

Lemma scan_app (st : scan_state) (a b : string) :
  scan st (a +:+ b)
  = match scan st a with
    | Some st' => scan st' b
    | None => None
    end.
Proof.
  revert st. induction a as [|c a IH]; intros st; [reflexivity|].
  rewrite app_cons_s. cbn [scan]. destruct (scan_step st c); auto.
Qed.

Lemma scan_escape_char (d : nat) (c : ascii) :
  scan (Inside d) (escape_char c) = Some (Inside d).
Proof.
  each_char c; reflexivity.
Qed.

Lemma scan_escape (d : nat) (s : string) :
  scan (Inside d) (escape s) = Some (Inside d).
Proof.
  induction s as [|c s IH]; [reflexivity|].
  cbn [escape]. by rewrite scan_app, scan_escape_char.
Qed.

Lemma scan_string (d : nat) (s : string) :
  scan (Outside d) (encode_basestring_ascii s) = Some (Outside d).
Proof.
  unfold encode_basestring_ascii.
  change (quote +:+ escape s +:+ quote)
    with (String "034" (escape s +:+ quote)).
  cbn [scan]. change (scan_step (Outside d) "034") with (Some (Inside d)).
  cbv iota. by rewrite scan_app, scan_escape.
Qed.

Lemma scan_uint (d : nat) (u : Decimal.uint) :
  scan (Outside d) (NilEmpty.string_of_uint u) = Some (Outside d).
Proof.
  induction u; cbn [NilEmpty.string_of_uint scan]; try done.
Qed.

Lemma scan_int (d : nat) (n : Z) :
  scan (Outside d) (int_repr n) = Some (Outside d).
Proof.
  unfold int_repr, NilZero.string_of_int, NilZero.string_of_uint.
  destruct n as [|p|p]; cbn [Z.to_int]; [reflexivity| |].
  - destruct (Pos.to_uint p) eqn:E; rewrite <- ?E; try apply scan_uint.
    reflexivity.
  - destruct (Pos.to_uint p) eqn:E; rewrite <- ?E;
      try (cbn [scan]; apply scan_uint).
    reflexivity.
Qed.

Lemma scan_elements (d : nat) (l : list json) :
  Forall (fun v => forall d, scan (Outside d) (dumps v) = Some (Outside d)) l ->
  scan (Outside d) (String.concat ", " (map dumps l)) = Some (Outside d).
Proof.
  induction 1 as [|x l Hx Hl IH]; [reflexivity|].
  destruct l as [|y l]; simpl map in *.
  - cbn [String.concat]. apply Hx.
  - rewrite concat_cons2, scan_app, Hx. cbn [scan]. exact IH.
Qed.

Lemma scan_items (d : nat) (a : list (string * json)) :
  Forall (fun kv => forall d, scan (Outside d) (dumps (snd kv)) = Some (Outside d)) a ->
  scan (Outside d) (String.concat ", " (map (dump_item dumps) a)) = Some (Outside d).
Proof.
  induction 1 as [|x l Hx Hl IH]; [reflexivity|].
  assert (Hi : scan (Outside d) (dump_item dumps x) = Some (Outside d)).
  { unfold dump_item. rewrite scan_app, scan_string.
    change (": " +:+ dumps (snd x)) with (String ":" (String " " (dumps (snd x)))).
    cbn [scan]. apply Hx. }
  destruct l as [|y l]; simpl map in *.
  - cbn [String.concat]. exact Hi.
  - rewrite concat_cons2, scan_app, Hi. cbn [scan]. exact IH.
Qed.

Lemma scan_dumps (v : json) (d : nat) :
  scan (Outside d) (dumps v) = Some (Outside d).
Proof.
  revert d.
  induction v as [|b|n|s|l IH|a IH] using json_nested_ind; intros d.
  - reflexivity.
  - destruct b; reflexivity.
  - apply scan_int.
  - apply scan_string.
  - rewrite <- (app_nil_r_s (dumps (JList l))), list_text.
    cbn [scan]. change (scan_step (Outside d) "[") with (Some (Outside (S d))).
    cbv iota. by rewrite scan_app, scan_elements.
  - rewrite <- (app_nil_r_s (dumps (JDict a))), dict_text.
    cbn [scan]. change (scan_step (Outside d) "{") with (Some (Outside (S d))).
    cbv iota. by rewrite scan_app, scan_items.
Qed.

Lemma scan_dict (a : list (string * json)) :
  scan Start (dumps (JDict a)) = Some Done.
Proof.
  rewrite <- (app_nil_r_s (dumps (JDict a))), dict_text.
  cbn [scan]. change (scan_step Start "{") with (Some (Outside 0)).
  cbv iota. rewrite scan_app, scan_items; [reflexivity|].
  apply Forall_forall. intros kv _ d. apply scan_dumps.
Qed.

Lemma scan_step_not_Start (st : scan_state) (c : ascii) :
  scan_step st c <> Some Start.
Proof.
  destruct st as [|d|d|d|]; unfold scan_step; cbv zeta;
    repeat case_match; discriminate.
Qed.

Lemma scan_to_Start (st : scan_state) (x : string) :
  scan st x = Some Start -> x = "".
Proof.
  revert st. induction x as [|c x IH]; intros st; [done|].
  cbn [scan]. destruct (scan_step st c) as [st'|] eqn:E; [|done].
  intros H. pose proof (IH _ H) as ->. cbn [scan] in H.
  exfalso. apply (scan_step_not_Start st c). congruence.
Qed.

Lemma opposite_step (a b a' b' : scan_state) (c : ascii) :
  opposite a b ->
  scan_step a c = Some a' -> scan_step b c = Some b' ->
  opposite a' b'.
Proof.
  destruct a as [|d1|d1|d1|], b as [|d2|d2|d2|]; simpl; try done;
    repeat case_match; intros; simplify_eq; done.
Qed.

Lemma opposite_scan (s : string) (a b a' b' : scan_state) :
  opposite a b ->
  scan a s = Some a' -> scan b s = Some b' ->
  opposite a' b'.
Proof.
  revert a b. induction s as [|c s IH]; intros a b Hab; cbn [scan].
  - intros; by simplify_eq.
  - destruct (scan_step a c) as [a1|] eqn:Ea; [|done].
    destruct (scan_step b c) as [b1|] eqn:Eb; [|done].
    apply IH. by apply (opposite_step a b a1 b1 c).
Qed.

(** The text of a dictionary is not the end of the text of a longer one. *)
Lemma dict_text_no_proper_suffix (x : string) (a b : list (string * json)) :
  x +:+ dumps (JDict a) = dumps (JDict b) -> x = "".
Proof.
  intros E. pose proof (scan_dict b) as Hb. rewrite <- E, scan_app in Hb.
  destruct (scan Start x) as [st|] eqn:Ex; [|done].
  pose proof (scan_dict a) as Ha.
  rewrite <- (app_nil_r_s (dumps (JDict a))), dict_text in Ha, Hb.
  destruct st as [|d|d|d|].
  - by apply scan_to_Start in Ex.
  - rewrite <- dict_text, app_nil_r_s, scan_dumps in Hb. done.
  - exfalso. cbn [scan] in Ha, Hb.
    change (scan_step Start "{") with (Some (Outside 0)) in Ha.
    change (scan_step (Inside d) "{") with (Some (Inside d)) in Hb.
    cbv iota in Ha, Hb.
    exact (opposite_scan _ (Outside 0) (Inside d) Done Done I Ha Hb).
  - exfalso. cbn [scan] in Ha, Hb.
    change (scan_step Start "{") with (Some (Outside 0)) in Ha.
    change (scan_step (Escaped d) "{") with (Some (Inside d)) in Hb.
    cbv iota in Ha, Hb.
    exact (opposite_scan _ (Outside 0) (Inside d) Done Done I Ha Hb).
  - done.
Qed.

Lemma app_eq_split (a b c d : string) :
  a +:+ b = c +:+ d ->
  exists x, (a = c +:+ x /\ d = x +:+ b) \/ (c = a +:+ x /\ b = x +:+ d).
Proof.
  revert c. induction a as [|ch a IH]; intros c E.
  - exists c. right. by rewrite app_nil_l_s in E.
  - destruct c as [|ch' c].
    + exists (String ch a). left. by rewrite app_nil_l_s in E.
    + rewrite !app_cons_s in E. injection E as -> E.
      destruct (IH c E) as [x [[-> ->]|[-> ->]]]; exists x; [left|right];
        by rewrite app_cons_s.
Qed.

(** The text hashed for a request determines the endpoint and the text of
    the parameters. *)
Lemma key_text_inj (e1 e2 : string) (a b : list (string * json)) :
  e1 +:+ dumps (JDict a) = e2 +:+ dumps (JDict b) ->
  e1 = e2 /\ dumps (JDict a) = dumps (JDict b).
Proof.
  intros E. destruct (app_eq_split _ _ _ _ E) as [x [[E1 E2]|[E1 E2]]].
  - symmetry in E2. pose proof (dict_text_no_proper_suffix x a b E2) as ->.
    rewrite app_nil_r_s in E1. by rewrite app_nil_l_s in E2.
  - symmetry in E2. pose proof (dict_text_no_proper_suffix x b a E2) as ->.
    rewrite app_nil_r_s in E1. by rewrite app_nil_l_s in E2.
Qed.

(** ** The cache file of a request *)

Lemma dumps_inj (a b : json) :
  well_formed a = true -> well_formed b = true ->
  dumps a = dumps b -> a = b.
Proof.
  intros Ha Hb E. apply loads_dumps in Ha, Hb. congruence.
Qed.

Lemma forallb_insert_item (P : string * json -> bool) (kv : string * json)
    (d : list (string * json)) :
  forallb P (insert_item kv d) = P kv && forallb P d.
Proof.
  induction d as [|kv' d IH]; simpl; [reflexivity|].
  destruct (String.leb (fst kv) (fst kv')); simpl; [reflexivity|].
  rewrite IH. by destruct (P kv), (P kv').
Qed.

Lemma forallb_sorted_items (P : string * json -> bool)
    (d : list (string * json)) :
  forallb P (sorted_items d) = forallb P d.
Proof.
  induction d as [|kv d IH]; simpl; [reflexivity|].
  by rewrite forallb_insert_item, IH.
Qed.

Lemma below_not_key (k : string) (d : list (string * json)) :
  below k d -> existsb (String.eqb k) (keys d) = false.
Proof.
  induction 1 as [|kv d [_ Hne] _ IH]; simpl; [reflexivity|].
  rewrite IH. by destruct (String.eqb_spec k (fst kv)).
Qed.

Lemma strictly_sorted_distinct (d : list (string * json)) :
  strictly_sorted d -> distinct (keys d) = true.
Proof.
  induction d as [|kv d IH]; simpl; [done|].
  intros [Hb Hs]. by rewrite below_not_key, IH.
Qed.

Lemma keys_map_snd (f : json -> json) (d : list (string * json)) :
  keys (map (fun kv => (fst kv, f (snd kv))) d) = keys d.
Proof.
  unfold keys. rewrite map_map. simpl. reflexivity.
Qed.

Lemma well_formed_sort_keys (v : json) :
  well_formed v = true -> well_formed (sort_keys v) = true.
Proof.
  induction v as [|b|n|s|l IH|d IH] using json_nested_ind; try done.
  - cbn [sort_keys well_formed]. intros Hl.
    induction IH as [|x l Hx _ IHl]; simpl in *; [done|].
    apply andb_true_iff in Hl as [H1 H2]. by rewrite Hx, IHl.
  - cbn [sort_keys well_formed].
    intros [Hk Hv]%andb_true_iff. apply andb_true_iff. split.
    + apply strictly_sorted_distinct, strictly_sorted_sorted_items.
      by rewrite keys_map_snd.
    + rewrite forallb_sorted_items.
      induction IH as [|x l Hx _ IHl]; simpl in *; [done|].
      apply andb_true_iff in Hk as [_ Hk].
      apply andb_true_iff in Hv as [H1 H2]. by rewrite Hx, IHl.
Qed.

Lemma ord_chr (n : Z) : 0 <= n < 256 -> ord (chr n) = n.
Proof.
  intros H. unfold ord, chr. rewrite N_ascii_embedding; lia.
Qed.

Lemma hex_digit_not_slash (n : Z) :
  0 <= n < 16 -> Ascii.eqb (hex_digit n) "/" = false.
Proof.
  intros H. apply Ascii.eqb_neq. intros E.
  apply (f_equal ord) in E. unfold hex_digit in E.
  destruct (n <? 10); rewrite ord_chr in E by lia;
    change (ord "/") with 47 in E; lia.
Qed.

Lemma replace_hex_byte (b : Z) (acc : string) :
  0 <= b < 256 ->
  replace "/" "_" (MD5.hex_byte b +:+ acc)
  = MD5.hex_byte b +:+ replace "/" "_" acc.
Proof.
  intros H. unfold MD5.hex_byte. rewrite !app_cons_s, app_nil_l_s.
  cbn [replace].
  rewrite !hex_digit_not_slash; [reflexivity| |].
  - by apply Z.mod_pos_bound.
  - split; [by apply Z.div_pos; lia|]. apply Z.div_lt_upper_bound; lia.
Qed.

Lemma le_bytes_range (n : nat) (x : Z) :
  Forall (fun b => 0 <= b < 256) (MD5.le_bytes n x).
Proof.
  unfold MD5.le_bytes. apply List.Forall_forall. intros b Hb.
  apply in_map_iff in Hb as (i & <- & _).
  by apply Z.mod_pos_bound.
Qed.

Lemma digest_range (msg : list Z) :
  Forall (fun b => 0 <= b < 256) (MD5.digest msg).
Proof.
  unfold MD5.digest.
  destruct (fold_left _ _ _) as [[[A B] C] D].
  repeat (apply Forall_app; split); apply le_bytes_range.
Qed.

(** A hexadecimal digest has no slash for [_get_cache_path] to replace. *)
Lemma replace_hexdigest (msg : list Z) :
  replace "/" "_" (MD5.hexdigest msg) = MD5.hexdigest msg.
Proof.
  unfold MD5.hexdigest.
  induction (digest_range msg) as [|b l Hb _ IH]; [reflexivity|].
  cbn [fold_right]. by rewrite replace_hex_byte, IH.
Qed.

Lemma app_inv_tail_s (a b s : string) : a +:+ s = b +:+ s -> a = b.
Proof.
  revert b. induction a as [|c a IH]; intros [|c' b] E.
  - reflexivity.
  - apply (f_equal String.length) in E.
    rewrite app_nil_l_s, app_cons_s in E. simpl in E.
    rewrite length_app_s in E. lia.
  - apply (f_equal String.length) in E.
    rewrite app_nil_l_s, app_cons_s in E. simpl in E.
    rewrite length_app_s in E. lia.
  - rewrite !app_cons_s in E. injection E as -> E. f_equal. by apply IH.
Qed.

Lemma cache_file_inj (e1 e2 : string)
    (p1 p2 : option (list (string * json))) :
  cache_file e1 p1 = cache_file e2 p2 -> hashed e1 p1 = hashed e2 p2.
Proof.
  unfold cache_file, _get_cache_path, hashed.
  rewrite !replace_hexdigest. intros E.
  apply (inj (String.app CACHE_DIR)) in E.
  apply (inj (String.app "/")) in E.
  by apply app_inv_tail_s in E.
Qed.

Lemma or_empty_query (p : option (list (string * json))) :
  or_empty p = query p.
Proof.
  destruct p as [[|kv d]|]; reflexivity.
Qed.

(** ** Equal values have one sorted form *)

Lemma existsb_eqb_elem (k : string) (l : list string) :
  existsb (String.eqb k) l = true <-> k ∈ l.
Proof.
  rewrite existsb_exists, list_elem_of_In. split.
  - intros (x & Hx & ->%String.eqb_eq). done.
  - intros H. exists k. by rewrite String.eqb_refl.
Qed.

Lemma distinct_NoDup (l : list string) : distinct l = true -> NoDup l.
Proof.
  induction l as [|k l IH]; simpl; [constructor|].
  intros [Hk Hl]%andb_true_iff. apply NoDup_cons. split; [|auto].
  intros Hin%existsb_eqb_elem. by rewrite Hin in Hk.
Qed.

Lemma dict_get_None (k : string) (d : list (string * json)) :
  dict_get k d = None <-> existsb (String.eqb k) (keys d) = false.
Proof.
  induction d as [|[k' v'] d IH]; simpl; [done|].
  destruct (String.eqb k k'); simpl; [split; discriminate|exact IH].
Qed.

Lemma dict_get_In (k : string) (v : json) (d : list (string * json)) :
  dict_get k d = Some v -> List.In (k, v) d.
Proof.
  induction d as [|[k' v'] d IH]; simpl; [done|].
  destruct (String.eqb_spec k k') as [->|_]; [|auto].
  intros [= ->]. by left.
Qed.

Lemma In_dict_get (kv : string * json) (d : list (string * json)) :
  distinct (keys d) = true -> List.In kv d ->
  dict_get (fst kv) d = Some (snd kv).
Proof.
  induction d as [|[k' v'] d IH]; simpl; [done|].
  intros [Hk Hd]%andb_true_iff [<-|Hin]; simpl.
  - by rewrite String.eqb_refl.
  - destruct (String.eqb_spec (fst kv) k') as [<-|_]; [|auto].
    apply negb_true_iff in Hk. exfalso.
    assert (existsb (String.eqb (fst kv)) (keys d) = true) as E; [|congruence].
    apply existsb_exists. exists (fst kv). split.
    + unfold keys. by apply in_map.
    + apply String.eqb_refl.
Qed.

Lemma dict_get_map_sort_keys (k : string) (d : list (string * json)) :
  dict_get k (map (fun kv => (fst kv, sort_keys (snd kv))) d)
  = option_map sort_keys (dict_get k d).
Proof.
  induction d as [|[k' v'] d IH]; simpl; [reflexivity|].
  by destruct (String.eqb k k').
Qed.

Lemma length_insert_item (kv : string * json) (d : list (string * json)) :
  List.length (insert_item kv d) = S (List.length d).
Proof.
  induction d as [|kv' d IH]; simpl; [reflexivity|].
  destruct (String.leb (fst kv) (fst kv')); simpl; by rewrite ?IH.
Qed.

Lemma length_sorted_items (d : list (string * json)) :
  List.length (sorted_items d) = List.length d.
Proof.
  induction d as [|kv d IH]; simpl; [reflexivity|].
  by rewrite length_insert_item, IH.
Qed.

(** Two dictionaries of the same size, the keys of the first among the keys
    of the second: they have the same keys. *)
Lemma same_keys (d1 d2 : list (string * json)) :
  distinct (keys d1) = true -> distinct (keys d2) = true ->
  List.length d1 = List.length d2 ->
  (forall k, dict_get k d1 <> None -> dict_get k d2 <> None) ->
  forall k, dict_get k d1 = None -> dict_get k d2 = None.
Proof.
  intros H1%distinct_NoDup H2%distinct_NoDup Hlen Hsub k Hk.
  assert (Hp : keys d1 ≡ₚ keys d2).
  { apply submseteq_length_Permutation.
    - apply NoDup_submseteq; [done|]. intros x Hx%existsb_eqb_elem.
      apply existsb_eqb_elem.
      destruct (existsb (String.eqb x) (keys d2)) eqn:E; [done|].
      apply dict_get_None in E. exfalso. apply (Hsub x); [|done].
      intros E'%dict_get_None. congruence.
    - unfold keys. rewrite !length_map. lia. }
  apply dict_get_None in Hk. apply dict_get_None.
  destruct (existsb (String.eqb k) (keys d2)) eqn:E; [|done].
  apply existsb_eqb_elem in E. rewrite <- Hp in E.
  apply existsb_eqb_elem in E. congruence.
Qed.

Lemma well_formed_value (k : string) (v : json) (d : list (string * json)) :
  forallb (fun kv => well_formed (snd kv)) d = true ->
  dict_get k d = Some v -> well_formed v = true.
Proof.
  intros Hd Hk%dict_get_In.
  by apply (proj1 (forallb_forall _ d) Hd (k, v)).
Qed.

Lemma same_value_sort_keys (a : json) :
  forall b,
    well_formed a = true -> well_formed b = true ->
    (same_value a b = true <-> sort_keys a = sort_keys b).
Proof.
  induction a as [|x|x|x|l1 IH|da IH] using json_nested_ind; intros b Ha Hb.
  - destruct b; simpl; split; congruence.
  - destruct b as [|y|y|y|l2|db]; simpl; split; try congruence.
    + by intros ->%eqb_prop.
    + intros [= ->]. apply eqb_reflx.
  - destruct b as [|y|y|y|l2|db]; simpl; split; try congruence.
    + by intros ->%Z.eqb_eq.
    + intros [= ->]. apply Z.eqb_refl.
  - destruct b as [|y|y|y|l2|db]; simpl; split; try congruence.
    + by intros ->%String.eqb_eq.
    + intros [= ->]. apply String.eqb_refl.
  - destruct b as [|y|y|y|l2|db]; try (simpl; split; congruence).
    cbn [well_formed] in Ha, Hb. cbn [same_value sort_keys].
    enough (H : (fix go (l1 l2 : list json) : bool :=
                   match l1, l2 with
                   | [], [] => true
                   | x :: l1', y :: l2' => same_value x y && go l1' l2'
                   | _, _ => false
                   end) l1 l2 = true
                <-> map sort_keys l1 = map sort_keys l2).
    { rewrite H. split; congruence. }
    revert l2 Ha Hb.
    induction IH as [|x l1 Hx _ IHl]; intros [|y l2] Ha Hb; simpl in *;
      try (split; congruence).
    apply andb_true_iff in Ha as [Ha1 Ha2].
    apply andb_true_iff in Hb as [Hb1 Hb2].
    rewrite andb_true_iff, (Hx y Ha1 Hb1), (IHl l2 Ha2 Hb2).
    split; [intros [-> ->]; done|intros [= -> ->]; done].
  - destruct b as [|y|y|y|l2|db]; try (simpl; split; congruence).
    cbn [well_formed] in Ha, Hb.
    apply andb_true_iff in Ha as [Ka Wa].
    apply andb_true_iff in Hb as [Kb Wb].
    cbn [same_value sort_keys].
    set (f := fun kv : string * json => (fst kv, sort_keys (snd kv))).
    assert (Hlook :
      (forall k, dict_get k (map f da) = dict_get k (map f db)) <->
      sorted_items (map f da) = sorted_items (map f db)).
    { split.
      - intros H. apply sorted_items_same; [| |done];
          unfold f; by rewrite keys_map_snd.
      - intros E k. rewrite <- (dict_get_sorted_items k (map f da)), E.
        apply dict_get_sorted_items. }
    rewrite andb_true_iff, Nat.eqb_eq, forallb_forall.
    rewrite List.Forall_forall in IH.
    split.
    + intros [Hlen Hall]. f_equal. apply Hlook. intros k.
      unfold f. rewrite !dict_get_map_sort_keys.
      destruct (dict_get k da) as [v|] eqn:Ek.
      * pose proof (Hall (k, v) (dict_get_In k v da Ek)) as Hv.
        cbn [fst snd] in Hv.
        destruct (dict_get k db) as [v'|] eqn:Ek'; [|done]. simpl.
        f_equal. apply (IH (k, v) (dict_get_In k v da Ek));
          [|eauto using well_formed_value|done].
        eauto using well_formed_value.
      * rewrite (same_keys da db Ka Kb Hlen); [done| |done].
        intros k' Hk'. destruct (dict_get k' da) as [v|] eqn:Ek'; [|done].
        pose proof (Hall (k', v) (dict_get_In k' v da Ek')) as Hv.
        cbn [fst snd] in Hv. by destruct (dict_get k' db).
    + intros [= Es]. pose proof (proj2 Hlook Es) as E. split.
      * apply (f_equal (@List.length _)) in Es.
        by rewrite !length_sorted_items, !length_map in Es.
      * intros kv Hin. pose proof (E (fst kv)) as Ek.
        unfold f in Ek. rewrite !dict_get_map_sort_keys in Ek.
        rewrite (In_dict_get kv da Ka Hin) in Ek.
        destruct (dict_get (fst kv) db) as [v'|] eqn:Ek'; [|done].
        simpl in Ek. injection Ek as Ek.
        apply (IH kv Hin); [|eauto using well_formed_value|done].
        by apply (proj1 (forallb_forall _ da) Wa kv).
Qed.

Lemma key_text (e : string) (p : option (list (string * json))) :
  key e p = e +:+ dumps (sort_keys (JDict (query p))).
Proof.
  unfold key, dumps_sorted. by rewrite or_empty_query.
Qed.

(** C4: two requests with the same endpoint and parameter mappings that
    are equal key by key, in whatever order, have the same hash and the same
    cache file; when the endpoints differ or the mappings are not equal, the
    hashes and the cache files differ unless MD5 collides on the two texts
    hashed. *)
Theorem cache_file_by_descriptor (e1 e2 : string)
    (p1 p2 : option (list (string * json))) :
  well_formed (JDict (query p1)) = true ->
  well_formed (JDict (query p2)) = true ->
  (e1 = e2 ->
   same_value (JDict (query p1)) (JDict (query p2)) = true ->
   hashed e1 p1 = hashed e2 p2 /\ cache_file e1 p1 = cache_file e2 p2)
  /\ (e1 <> e2 \/ same_value (JDict (query p1)) (JDict (query p2)) = false ->
      (hashed e1 p1 = hashed e2 p2 -> key e1 p1 = key e2 p2) ->
      hashed e1 p1 <> hashed e2 p2 /\ cache_file e1 p1 <> cache_file e2 p2).
Proof.
  intros W1 W2. split.
  - intros <- Hsame.
    apply (same_value_sort_keys _ _ W1 W2) in Hsame.
    assert (key e1 p1 = key e1 p2) as Hk by (by rewrite !key_text, Hsame).
    unfold cache_file, hashed. by rewrite Hk.
  - intros Hdiff Hmd5.
    assert (Hh : hashed e1 p1 <> hashed e2 p2).
    { intros Hk%Hmd5. rewrite !key_text in Hk. cbn [sort_keys] in Hk.
      apply key_text_inj in Hk as [He Hd].
      apply (dumps_inj (sort_keys (JDict (query p1)))
                       (sort_keys (JDict (query p2)))) in Hd;
        try by apply well_formed_sort_keys.
      apply (same_value_sort_keys _ _ W1 W2) in Hd.
      destruct Hdiff as [Hne|Hne]; congruence. }
    split; [exact Hh|]. intros Hc. by apply Hh, cache_file_inj.
Qed.

(** ** Freshness *)

Lemma Qltb_lt (x y : Q) : Qltb x y = true <-> (x < y)%Q.
Proof.
  unfold Qltb. rewrite Qlt_alt. destruct (x ?= y)%Q; split; congruence.
Qed.

Lemma Qltb_ge (x y : Q) : Qltb x y = false <-> (y <= x)%Q.
Proof.
  split; intros H.
  - apply Qnot_lt_le. intros Hlt. apply Qltb_lt in Hlt. congruence.
  - destruct (Qltb x y) eqn:E; [|reflexivity].
    apply Qltb_lt in E. exfalso. eapply Qlt_not_le; eauto.
Qed.

Lemma is_cache_valid_true (now : Q) (files : gmap string file)
    (cache_file : string) :
  _is_cache_valid now files cache_file = true <->
  exists f, files !! cache_file = Some f /\ (now - st_mtime f < 300)%Q.
Proof.
  unfold _is_cache_valid, CACHE_EXPIRY. split.
  - destruct (files !! cache_file) as [f|]; [|discriminate].
    intros H. exists f. split; [reflexivity|]. by apply Qltb_lt.
  - intros (f & -> & H). by apply Qltb_lt.
Qed.

(** C5: a cache file is valid exactly while it exists and less than 300
    seconds have passed since its last write; it is valid at the moment of
    the write and as long as less than 300 seconds have passed, invalid once
    300 seconds or more have passed, and a missing file is never valid. *)
Theorem cache_valid_iff_fresh (now : Q) (files : gmap string file)
    (cache_file : string) :
  (_is_cache_valid now files cache_file = true <->
     exists f, files !! cache_file = Some f /\ (now - st_mtime f < 300)%Q)
  /\ (forall t data,
        _is_cache_valid t (_save_to_cache t files cache_file data) cache_file
        = true)
  /\ (forall t data,
        (now - t < 300)%Q ->
        _is_cache_valid now (_save_to_cache t files cache_file data) cache_file
        = true)
  /\ (forall t data,
        (300 <= now - t)%Q ->
        _is_cache_valid now (_save_to_cache t files cache_file data) cache_file
        = false)
  /\ (files !! cache_file = None ->
        _is_cache_valid now files cache_file = false).
Proof.
  split; [apply is_cache_valid_true|].
  unfold _is_cache_valid, _save_to_cache, CACHE_EXPIRY.
  repeat split.
  - intros t data. rewrite lookup_insert_eq. simpl. apply Qltb_lt.
    unfold Qminus. rewrite Qplus_opp_r. reflexivity.
  - intros t data H. rewrite lookup_insert_eq. simpl. by apply Qltb_lt.
  - intros t data H. rewrite lookup_insert_eq. simpl. by apply Qltb_ge.
  - intros ->. reflexivity.
Qed.

(** ** The control flow of [get] *)

Section Get.

Variable self : t.
Variables now later : Q.
Variable net : string -> list (string * json) -> answer.
Variable w : world.
Variable endpoint : string.
Variable params : option (list (string * json)).

Let path : string := cache_file endpoint params.
Let url : string := base_url self +:+ "/" +:+ endpoint.













End Get.

(** C10: absent parameters and empty parameters derive the same cache file,
    and [get] gives the same result and the same world for both. *)
Theorem absent_params_as_empty (self : t) (now later : Q)
    (net : string -> list (string * json) -> answer) (w : world)
    (endpoint : string) :
  cache_file endpoint None = cache_file endpoint (Some [])
  /\ get self now later net w endpoint None
     = get self now later net w endpoint (Some []).
Proof.
  split; reflexivity.
Qed.

(** ** Sample runs *)









Lemma cache_file_by_descriptor_witness :
  cache_file "coins/markets" Demo.markets
  = cache_file "coins/markets" Demo.markets_reordered
  /\ cache_file "coins/markets" Demo.markets
     <> cache_file "coins/markets" Demo.markets_next
  /\ cache_file "coins/markets" Demo.markets
     <> cache_file "coins/list" Demo.markets.
Proof.
  split; [|split].
  - apply (cache_file_by_descriptor "coins/markets" "coins/markets"
             Demo.markets Demo.markets_reordered); reflexivity.
  - apply (cache_file_by_descriptor "coins/markets" "coins/markets"
             Demo.markets Demo.markets_next);
      [reflexivity | reflexivity | right; reflexivity |].
    intros H. vm_compute in H. discriminate H.
  - apply (cache_file_by_descriptor "coins/markets" "coins/list"
             Demo.markets Demo.markets);
      [reflexivity | reflexivity | left; discriminate |].
    intros H. vm_compute in H. discriminate H.
Defined.

(** At 299.5 seconds the file is valid, at 300 seconds it is not. *)
Lemma cache_valid_iff_fresh_witness :
  _is_cache_valid (2599 # 2)
    (_save_to_cache 1000 ∅ (cache_file "coins/bitcoin" None) Demo.bitcoin)
    (cache_file "coins/bitcoin" None) = true
  /\ _is_cache_valid 1300
       (_save_to_cache 1000 ∅ (cache_file "coins/bitcoin" None) Demo.bitcoin)
       (cache_file "coins/bitcoin" None) = false.
Proof.
  split.
  - refine (proj1 (proj2 (proj2 (cache_valid_iff_fresh (2599 # 2) ∅
                                   (cache_file "coins/bitcoin" None))))
              1000%Q Demo.bitcoin _).
    vm_compute; reflexivity.
  - refine (proj1 (proj2 (proj2 (proj2 (cache_valid_iff_fresh 1300 ∅
                                          (cache_file "coins/bitcoin" None)))))
              1000%Q Demo.bitcoin _).
    unfold Qle; simpl; lia.
Defined.



(** * Further properties of the service *)

(** ** Decoded values *)









(** ** Two calls in a row *)


Section GetAgain.

Variable self : t.
Variables now later : Q.
Variable net : string -> list (string * json) -> answer.
Variable w : world.
Variable endpoint : string.
Variable params : option (list (string * json)).

(** The clocks and the network of the second call. *)
Variables now' later' : Q.
Variable net' : string -> list (string * json) -> answer.

Let path : string := cache_file endpoint params.
Let url : string := base_url self +:+ "/" +:+ endpoint.


Let first : outcome * world := get self now later net w endpoint params.




End GetAgain.

(** ** The names of the cache files *)

Lemma hex_digit_lower (n : Z) :
  0 <= n < 16 -> is_lower_hex (hex_digit n) = true.
Proof.
  intros H. unfold is_lower_hex, is_digit, hex_digit.
  destruct (n <? 10) eqn:E; rewrite ord_chr by lia; lia.
Qed.

Lemma hex_byte_shape (b : Z) (acc : string) :
  0 <= b < 256 ->
  String.length (MD5.hex_byte b +:+ acc) = S (S (String.length acc))
  /\ all_chars is_lower_hex (MD5.hex_byte b +:+ acc)
     = all_chars is_lower_hex acc.
Proof.
  intros H. unfold MD5.hex_byte. rewrite !app_cons_s, app_nil_l_s.
  split; [done|]. cbn [all_chars].
  rewrite !hex_digit_lower; [done| |].
  - by apply Z.mod_pos_bound.
  - split; [by apply Z.div_pos; lia|]. apply Z.div_lt_upper_bound; lia.
Qed.

Lemma length_le_bytes (n : nat) (x : Z) : length (MD5.le_bytes n x) = n.
Proof.
  unfold MD5.le_bytes. by rewrite length_map, length_seq.
Qed.

Lemma length_digest (msg : list Z) : length (MD5.digest msg) = 16%nat.
Proof.
  unfold MD5.digest.
  destruct (fold_left _ _ _) as [[[A B] C] D].
  by rewrite !length_app, !length_le_bytes.
Qed.

Lemma hexdigest_shape (msg : list Z) :
  String.length (MD5.hexdigest msg) = 32%nat
  /\ all_chars is_lower_hex (MD5.hexdigest msg) = true.
Proof.
  unfold MD5.hexdigest.
  enough (H : String.length
                (fold_right (fun b acc => MD5.hex_byte b +:+ acc) ""
                   (MD5.digest msg))
              = (2 * length (MD5.digest msg))%nat
              /\ all_chars is_lower_hex
                   (fold_right (fun b acc => MD5.hex_byte b +:+ acc) ""
                      (MD5.digest msg)) = true)
    by (by rewrite length_digest in H).
  induction (digest_range msg) as [|b l Hb _ [IH1 IH2]]; [done|].
  cbn [fold_right length].
  destruct (hex_byte_shape b
              (fold_right (fun b acc => MD5.hex_byte b +:+ acc) "" l) Hb)
    as [-> ->].
  split; [lia|done].
Qed.

(** X4: whatever the endpoint and the parameters, the cache file of [get]
    is [data/cache/<h>.json] where [h] is 32 characters, each a digit or a
    letter from a to f: no character of the endpoint reaches the file
    name. *)
Theorem cache_file_shape (endpoint : string)
    (params : option (list (string * json))) :
  cache_file endpoint params
  = "data/cache/" +:+ hashed endpoint params +:+ ".json"
  /\ String.length (hashed endpoint params) = 32%nat
  /\ all_chars is_lower_hex (hashed endpoint params) = true.
Proof.
  split; [|apply hexdigest_shape].
  unfold cache_file, _get_cache_path, hashed.
  by rewrite replace_hexdigest.
Qed.

Lemma length_replace (old new : ascii) (s : string) :
  String.length (replace old new s) = String.length s.
Proof.
  induction s as [|c s IH]; simpl; congruence.
Qed.

Lemma replace_no_old (old new : ascii) (s : string) :
  old <> new ->
  all_chars (fun c => negb (Ascii.eqb c old)) (replace old new s) = true.
Proof.
  intros Hne. induction s as [|c s IH]; [done|]. cbn [replace all_chars].
  rewrite IH, andb_true_r.
  destruct (Ascii.eqb_spec c old) as [->|Hc].
  - apply negb_true_iff, Ascii.eqb_neq. congruence.
  - by apply negb_true_iff, Ascii.eqb_neq.
Qed.

Lemma replace_idem (old new : ascii) (s : string) :
  old <> new -> replace old new (replace old new s) = replace old new s.
Proof.
  intros Hne. induction s as [|c s IH]; [done|]. cbn [replace].
  rewrite IH. f_equal.
  destruct (Ascii.eqb_spec c old) as [->|Hc].
  - destruct (Ascii.eqb_spec new old); congruence.
  - destruct (Ascii.eqb_spec c old); congruence.
Qed.

Lemma get_cache_path_inj (e1 e2 : string) :
  _get_cache_path e1 = _get_cache_path e2 <->
  replace "/" "_" e1 = replace "/" "_" e2.
Proof.
  unfold _get_cache_path. split; [|by intros ->].
  intros E.
  apply (inj (String.app CACHE_DIR)) in E.
  apply (inj (String.app "/")) in E.
  by apply app_inv_tail_s in E.
Qed.

(** X5: [_get_cache_path] puts the file of an endpoint directly in the
    cache directory, under a name without a slash; two endpoints have the
    same file exactly when they are equal once every slash is read as an
    underscore, so an endpoint and its form with underscores share one
    file. *)
Theorem get_cache_path_shared (e1 e2 : string) :
  (exists name,
     _get_cache_path e1 = "data/cache/" +:+ name +:+ ".json"
     /\ String.length name = String.length e1
     /\ all_chars (fun c => negb (Ascii.eqb c "/")) name = true)
  /\ (_get_cache_path e1 = _get_cache_path e2 <->
      replace "/" "_" e1 = replace "/" "_" e2)
  /\ _get_cache_path (replace "/" "_" e1) = _get_cache_path e1.
Proof.
  split; [|split].
  - exists (replace "/" "_" e1). split; [done|].
    split; [apply length_replace|by apply replace_no_old].
  - apply get_cache_path_inj.
  - apply get_cache_path_inj. by apply replace_idem.
Qed.

Lemma cache_file_not_get_cache_path (endpoint : string)
    (params : option (list (string * json))) :
  String.length endpoint <> 32%nat ->
  cache_file endpoint params <> _get_cache_path endpoint.
Proof.
  intros Hlen E. unfold cache_file in E.
  apply get_cache_path_inj in E.
  apply (f_equal String.length) in E. rewrite !length_replace in E.
  unfold hashed in E.
  destruct (hexdigest_shape (encode (key endpoint params))) as [H32 _].
  congruence.
Qed.

Lemma load_other (now : Q) (files : gmap string file) (p q : string)
    (data : json) :
  p <> q ->
  _load_from_cache (_save_to_cache now files q data) p
  = _load_from_cache files p.
Proof.
  intros Hne. unfold _load_from_cache, _save_to_cache.
  by rewrite lookup_insert_ne.
Qed.

Lemma valid_other (now t : Q) (files : gmap string file) (p q : string)
    (data : json) :
  p <> q ->
  _is_cache_valid now (_save_to_cache t files q data) p
  = _is_cache_valid now files p.
Proof.
  intros Hne. unfold _is_cache_valid, _save_to_cache.
  by rewrite lookup_insert_ne.
Qed.

(** X6: a file saved under [_get_cache_path(endpoint)] takes no part in
    [get(endpoint, params)] when the endpoint is not 32 characters long:
    with the file in place, [get] has the outcome it has without it, and
    leaves the world it leaves without it, the file added. *)
Theorem endpoint_file_is_not_read (self : t) (now later : Q)
    (net : string -> list (string * json) -> answer) (w : world)
    (endpoint : string) (params : option (list (string * json)))
    (t : Q) (data : json) :
  String.length endpoint <> 32%nat ->
  get self now later net (with_endpoint_file t endpoint data w)
      endpoint params
  = (fst (get self now later net w endpoint params),
     with_endpoint_file t endpoint data
       (snd (get self now later net w endpoint params))).
Proof.
  intros Hlen.
  pose proof (cache_file_not_get_cache_path endpoint params Hlen) as Hne.
  unfold get, with_endpoint_file. cbn [fs sent].
  rewrite load_other, valid_other by done.
  destruct (_is_cache_valid _ _ _ && truthy _); [done|].
  destruct (attempt _) as [e|v]; simpl.
  - destruct (is_RequestException e); [|done].
    by destruct (truthy _).
  - f_equal. f_equal. unfold _save_to_cache.
    by apply insert_insert_ne.
Qed.

(** * Properties of [get_top_cryptos] *)

Lemma get_sent (self : t) (now later : Q)
    (net : string -> list (string * json) -> answer) (w : world)
    (endpoint : string) (params : option (list (string * json))) :
  exists new,
    sent (snd (get self now later net w endpoint params)) = new ++ sent w
    /\ (length new <= 1)%nat
    /\ Forall (fun r => fst r = base_url self +:+ "/" +:+ endpoint) new.
Proof.
  unfold get.
  destruct (_is_cache_valid _ _ _ && truthy _).
  { exists []. split; [done|]. split; [simpl; lia|constructor]. }
  exists [(base_url self +:+ "/" +:+ endpoint, query params)].
  split; [|split; [simpl; lia|by repeat constructor]].
  destruct (attempt _) as [e|v]; [|done].
  destruct (is_RequestException e); [|done].
  by destruct (truthy _).
Qed.

Lemma more_currencies_sent (api : t) (calls : nat -> call)
    (currencies : list string) (n : nat) (w : world) (data : list json) :
  exists new,
    sent (snd (more_currencies api calls n w data currencies))
    = new ++ sent w
    /\ (length new <= length currencies)%nat
    /\ Forall (is_market_request api) new.
Proof.
  revert n w data.
  induction currencies as [|currency rest IH]; intros n w data.
  { exists []. split; [done|]. split; [simpl; lia|constructor]. }
  cbn [more_currencies].
  destruct (coin_ids data) as [ids|];
    [|exists []; split; [done|]; split; [simpl; lia|constructor]].
  unfold api_get.
  destruct (get_sent api (checked (calls n)) (written (calls n))
              (server (calls n)) w "simple/price"
              (Some (price_params ids currency)))
    as (new & Hnew & Hlen & Hurl).
  assert (Hreq : Forall (is_market_request api) new).
  { eapply List.Forall_impl; [|exact Hurl]. intros r Hr. by right. }
  destruct (get _ _ _ _ _ _ _) as [[prices|e] w1]; simpl in Hnew.
  - destruct (mapM _ data) as [data'|].
    + destruct (IH (S n) w1 data') as (new' & Hnew' & Hlen' & Hurl').
      exists (new' ++ new). rewrite Hnew', Hnew, <- app_assoc.
      split; [done|]. split.
      * rewrite length_app. simpl. lia.
      * by apply Forall_app.
    + exists new. simpl. split; [done|]. split; [lia|done].
  - exists new. simpl. split; [done|]. split; [lia|done].
Qed.

(** X7: whatever the server answers, [get_top_cryptos] only adds requests
    to those sent before, at most one for each currency asked for (one when
    none is), each to [coins/markets] or to [simple/price]. *)
Theorem get_top_cryptos_requests (api : t) (calls : nat -> call) (w : world)
    (limit : Z) (currencies : list string) :
  exists new,
    sent (snd (get_top_cryptos api calls w limit currencies))
    = new ++ sent w
    /\ (length new <= Nat.max 1 (length currencies))%nat
    /\ Forall (is_market_request api) new.
Proof.
  unfold get_top_cryptos.
  set (cs := if currencies is [] then ["usd"] else currencies).
  assert (Hcs : (length cs <= Nat.max 1 (length currencies))%nat).
  { subst cs. destruct currencies; simpl; lia. }
  destruct cs as [|first rest];
    [exists []; split; [done|]; split; [simpl; lia|constructor]|].
  unfold api_get.
  destruct (get_sent api (checked (calls 0%nat)) (written (calls 0%nat))
              (server (calls 0%nat)) w "coins/markets"
              (Some (market_params limit first)))
    as (new & Hnew & Hlen & Hurl).
  assert (Hreq : Forall (is_market_request api) new).
  { eapply List.Forall_impl; [|exact Hurl]. intros r Hr. by left. }
  simpl in Hcs.
  assert (Hone : exists new0, sent (snd (get api (checked (calls 0%nat))
                   (written (calls 0%nat)) (server (calls 0%nat)) w
                   "coins/markets" (Some (market_params limit first))))
                 = new0 ++ sent w
                 /\ (length new0 <= Nat.max 1 (length currencies))%nat
                 /\ Forall (is_market_request api) new0).
  { exists new. split; [done|]. split; [lia|done]. }
  destruct (get _ _ _ _ _ _ _) as [[data|e] w1]; simpl in Hnew, Hone;
    [|done].
  destruct data as [| | | |data|]; try done.
  destruct rest as [|second rest]; [done|].
  destruct (more_currencies_sent api calls (second :: rest) 1 w1 data)
    as (new' & Hnew' & Hlen' & Hurl').
  exists (new' ++ new).
  assert (Hall : sent (snd (more_currencies api calls 1 w1 data
                              (second :: rest)))
                 = (new' ++ new) ++ sent w
                 /\ (length (new' ++ new) <= Nat.max 1 (length currencies))%nat
                 /\ Forall (is_market_request api) (new' ++ new)).
  { rewrite Hnew', Hnew, <- app_assoc. split; [done|]. split.
    - rewrite length_app. simpl in Hlen', Hcs. lia.
    - by apply Forall_app. }
  by destruct (more_currencies _ _ _ _ _ _) as [[data'|] w2].
Qed.


(** A coin whose price is not a dictionary cannot take the price of a
    further currency. *)
Lemma merge_price_plain (prices : json) (currency : string)
    (d : list (string * json)) (coin_id v : json) :
  dict_get "id" d = Some coin_id ->
  contains coin_id prices = Some true ->
  dict_get "current_price" d = Some v ->
  (forall m, v <> JDict m) ->
  merge_price prices currency (JDict d) = None.
Proof.
  intros Hid Hin Hv Hplain. unfold merge_price. cbn [getitem].
  rewrite Hid. cbn [mbind option_bind]. rewrite Hin. cbn [mbind option_bind].
  cbn [contains fmap option_fmap option_map mbind option_bind].
  destruct (existsb _ (keys d)) eqn:E;
    [|apply dict_get_None in E; congruence].
  cbn [negb mbind option_bind].
  destruct (entry ← getitem prices coin_id; get_or entry currency JNull);
    [|done].
  cbn [mbind option_bind getitem]. rewrite Hv. cbn [mbind option_bind].
  destruct v; try done. by destruct (Hplain d0).
Qed.




(** X8: when the market answer lists a coin whose [current_price] is not a
    dictionary, as a plain number, and the price answer for the second
    currency has the identifier of that coin, [get_top_cryptos] returns the
    empty list for two or more currencies, whatever else the answers
    hold. *)
Theorem plain_price_gives_no_data (api : t) (calls : nat -> call)
    (w : world) (limit : Z) (first second : string) (rest : list string)
    (data : list json) (d : list (string * json)) (coin_id v : json) :
  fst (api_get api (calls 0%nat) w "coins/markets"
         (market_params limit first)) = Return (JList data) ->
  List.In (JDict d) data ->
  dict_get "id" d = Some coin_id ->
  dict_get "current_price" d = Some v ->
  (forall m, v <> JDict m) ->
  (forall ids prices,
     coin_ids data = Some ids ->
     fst (api_get api (calls 1%nat)
            (snd (api_get api (calls 0%nat) w "coins/markets"
                    (market_params limit first)))
            "simple/price" (price_params ids second)) = Return prices ->
     contains coin_id prices = Some true) ->
  fst (get_top_cryptos api calls w limit (first :: second :: rest)) = [].
Proof.
  intros Hdata Hin Hid Hv Hplain Hprices.
  unfold get_top_cryptos.
  destruct (api_get api (calls 0%nat) w "coins/markets" _) as [o w1].
  simpl in Hdata, Hprices. subst o.
  cbn [more_currencies].
  destruct (coin_ids data) as [ids|]; [|done].
  specialize (Hprices ids).
  destruct (api_get _ _ _ _ _) as [[prices|e] w2]; [|done].
  specialize (Hprices prices eq_refl eq_refl).
  replace (mapM (merge_price prices second) data) with (@None (list json));
    [done|].
  symmetry. apply eq_None_not_Some. intros His%mapM_is_Some.
  rewrite List.Forall_forall in His. specialize (His _ Hin).
  unfold compose in His.
  rewrite (merge_price_plain prices second d coin_id v) in His by done.
  by destruct His.
Qed.




(** * Properties of [monitor_price] and [send_email_alert] *)

Lemma is_set_Some (value : option string) :
  is_set value = true <-> exists s, value = Some s /\ s <> "".
Proof.
  unfold is_set. destruct value as [s|].
  - rewrite negb_true_iff, String.eqb_neq. split; [by exists s|].
    by intros (s' & [= <-] & H).
  - split; [done|]. by intros (s & H & _).
Qed.

(** X11: [send_email_alert] hands a message to the mail server exactly when
    [ALERT_EMAIL] and [ALERT_PASSWORD] are both set and not empty and the
    login with them succeeds; the message is from [ALERT_EMAIL], with the
    subject and the body given, to [ALERT_RECIPIENT], or to [ALERT_EMAIL]
    when [ALERT_RECIPIENT] is not set or is empty. *)
Theorem send_email_alert_configured (getenv : string -> option string)
    (login : string -> string -> bool) (subject body : string) (m : mail) :
  send_email_alert getenv login subject body = Some m <->
  exists sender password,
    getenv "ALERT_EMAIL" = Some sender /\ sender <> ""
    /\ getenv "ALERT_PASSWORD" = Some password /\ password <> ""
    /\ login sender password = true
    /\ m = {| Subject := subject; From := sender;
              To := match getenv "ALERT_RECIPIENT" with
                    | Some r => if String.eqb r "" then sender else r
                    | None => sender
                    end;
              payload := body |}.
Proof.
  unfold send_email_alert. cbn [forallb]. rewrite andb_true_r. split.
  - destruct (is_set (getenv "ALERT_EMAIL")) eqn:Es; [|done].
    destruct (is_set (getenv "ALERT_PASSWORD")) eqn:Ep; [|done].
    apply is_set_Some in Es as (sender & Es & Hs).
    apply is_set_Some in Ep as (password & Ep & Hp).
    rewrite Es, Ep. cbn [andb negb]. intros H.
    exists sender, password. repeat (split; [done|]).
    unfold is_set in H.
    destruct (getenv "ALERT_RECIPIENT") as [r|];
      [destruct (String.eqb r ""); cbn [negb] in H|];
      destruct (login sender password); by simplify_eq.
  - intros (sender & password & Es & Hs & Ep & Hp & Hl & ->).
    assert (Hs1 : is_set (Some sender) = true) by (apply is_set_Some; eauto).
    assert (Hp1 : is_set (Some password) = true)
      by (apply is_set_Some; eauto).
    rewrite Es, Ep, Hs1, Hp1. cbn [andb negb].
    unfold is_set.
    destruct (getenv "ALERT_RECIPIENT") as [r|];
      [destruct (String.eqb r ""); cbn [negb]|]; by rewrite Hl.
Qed.

Section Monitor.

Variable float_of : string -> option pyfloat.
Variable str_of : json -> string.
Variable upper : string -> string.
Variable fixed : bool -> price -> string.

Variable api : t.
Variable c : call.
Variable getenv : string -> option string.
Variable login : string -> string -> bool.
Variable w : world.
Variable coin_id : string.
Variable threshold : pyfloat.
Variable currency : string.

Let answer_of_get : outcome :=
  fst (api_get api c w "coins/markets"
         [("vs_currency", JStr currency); ("ids", JStr coin_id)]).

Let handed : option mail :=
  fst (monitor_price float_of str_of upper fixed api c getenv login w
         coin_id threshold currency).

Lemma alert_needs (data : json) (message : string * string) :
  alert float_of str_of upper fixed coin_id threshold currency data
  = Some message ->
  exists d rest p caps cap n,
    data = JList (JDict d :: rest)
    /\ current_price_of float_of (JDict d) currency = Some p
    /\ le_threshold p threshold = Some true
    /\ dict_get "market_cap" d = Some (JDict caps)
    /\ dict_get currency caps = Some cap
    /\ number cap = Some n.
Proof.
  unfold alert. intros H.
  destruct data as [| | | |[|coin rest]|]; try done.
  destruct (current_price_of float_of coin currency) as [p|] eqn:Ep; [|done].
  cbn [mbind option_bind] in H.
  destruct (le_threshold p threshold) as [[]|] eqn:Ele; try done.
  cbn [mbind option_bind] in H.
  destruct coin as [| | | | |d]; try done.
  cbn [get_or mbind option_bind] in H.
  destruct (format_fixed fixed false p); [|done].
  cbn [mbind option_bind] in H.
  destruct (dict_get "market_cap" d) as [caps|] eqn:Ecaps; simpl in H;
    [|done].
  destruct caps as [| | | | |caps]; try done. simpl in H.
  destruct (dict_get currency caps) as [cap|] eqn:Ecap; simpl in H; [|done].
  unfold format_fixed, has_fixed in H.
  destruct (number cap) as [n|] eqn:En; [|done].
  by exists d, rest, p, caps, cap, n.
Qed.

(** X10: [monitor_price] hands an alert to the mail server only if the
    answer is a list whose first coin is a dictionary, the price of that
    coin is a number that is at most the threshold, and [market_cap] of the
    coin is a dictionary that holds a number for the currency: for a coin
    whose [market_cap] is a plain number or is missing, no alert is sent
    whatever the price and the threshold. *)
Theorem alert_needs_cap_by_currency (m : mail) :
  handed = Some m ->
  exists d rest p caps cap n,
    answer_of_get = Return (JList (JDict d :: rest))
    /\ current_price_of float_of (JDict d) currency = Some p
    /\ le_threshold p threshold = Some true
    /\ dict_get "market_cap" d = Some (JDict caps)
    /\ dict_get currency caps = Some cap
    /\ number cap = Some n.
Proof.
  unfold handed, answer_of_get, monitor_price.
  destruct (api_get _ _ _ _ _) as [[data|e] w1]; [|done].
  cbn [fst]. intros H.
  destruct (alert _ _ _ _ _ _ _ data) as [message|] eqn:E; [|done].
  destruct (alert_needs data message E)
    as (d & rest & p & caps & cap & n & -> & H').
  by exists d, rest, p, caps, cap, n.
Qed.

(** X12: a price that is missing counts as 0.  When [current_price] of the
    first coin is a dictionary without the currency, or a string that
    [float] does not read, and the market cap and the mail settings are in
    order, the alert is handed to the mail server exactly when 0 is at most
    the threshold. *)
Theorem missing_price_counts_as_zero (d : list (string * json))
    (rest : list json) (caps : list (string * json)) (n : Z)
    (sender password : string) :
  answer_of_get = Return (JList (JDict d :: rest)) ->
  (exists prices,
     dict_get "current_price" d = Some (JDict prices)
     /\ dict_get currency prices = None)
  \/ (exists s,
        dict_get "current_price" d = Some (JStr s) /\ float_of s = None) ->
  dict_get "market_cap" d = Some (JDict caps) ->
  dict_get currency caps = Some (JInt n) ->
  Z.abs n < 2 ^ 1024 - 2 ^ 970 ->
  getenv "ALERT_EMAIL" = Some sender -> sender <> "" ->
  getenv "ALERT_PASSWORD" = Some password -> password <> "" ->
  login sender password = true ->
  is_Some handed <-> int_le 0 threshold = true.
Proof.
  intros Hget Hprice Hcaps Hcap Hn Hs Hs' Hp Hp' Hlogin.
  unfold handed, monitor_price. unfold answer_of_get in Hget.
  destruct (api_get _ _ _ _ _) as [o w1]. cbn [fst] in Hget. subst o.
  cbn [fst].
  assert (Hzero : current_price_of float_of (JDict d) currency
                  = Some (Value (JInt 0))).
  { unfold current_price_of. cbn [get_or].
    destruct Hprice as [(prices & -> & E)|(s & -> & E)]; simpl;
      by rewrite E. }
  unfold alert. rewrite Hzero. cbn [mbind option_bind le_threshold number].
  destruct (int_le 0 threshold); [|split; [by intros [? ?]|done]].
  split; [done|intros _].
  cbn [get_or]. rewrite Hcaps. simpl. rewrite Hcap. simpl.
  unfold format_fixed, has_fixed. cbn [number].
  replace (Z.abs 0 <? 2 ^ 1024 - 2 ^ 970) with true by (symmetry; lia).
  replace (Z.abs n <? 2 ^ 1024 - 2 ^ 970) with true by (symmetry; lia).
  cbn [mbind option_bind fst snd].
  assert (Hs1 : is_set (Some sender) = true) by (apply is_set_Some; eauto).
  assert (Hp1 : is_set (Some password) = true) by (apply is_set_Some; eauto).
  unfold send_email_alert. rewrite Hs, Hp. cbn [forallb].
  rewrite Hs1, Hp1. cbn [andb negb]. rewrite Hlogin.
  destruct (getenv "ALERT_RECIPIENT") as [r|]; cbn [is_set]; [|done].
  by destruct (negb _).
Qed.

(** X15: when the first coin gives its price and its market cap by
    currency, as integers that convert to a float, and the mail settings
    and the login are in order, [monitor_price] hands one message to the
    mail server if the price is at most the threshold, and none if it is
    not; the subject names the coin by its [name], or by the identifier
    asked for when it has no name. *)
Theorem alert_when_price_is_below (d : list (string * json))
    (rest : list json) (prices caps : list (string * json)) (p n : Z)
    (sender password : string) :
  answer_of_get = Return (JList (JDict d :: rest)) ->
  dict_get "current_price" d = Some (JDict prices) ->
  dict_get currency prices = Some (JInt p) ->
  Z.abs p < 2 ^ 1024 - 2 ^ 970 ->
  dict_get "market_cap" d = Some (JDict caps) ->
  dict_get currency caps = Some (JInt n) ->
  Z.abs n < 2 ^ 1024 - 2 ^ 970 ->
  getenv "ALERT_EMAIL" = Some sender -> sender <> "" ->
  getenv "ALERT_PASSWORD" = Some password -> password <> "" ->
  login sender password = true ->
  let name := str_of (default (JStr coin_id) (dict_get "name" d)) in
  let change :=
    str_of (default (JStr "N/A") (dict_get "price_change_percentage_24h" d))
  in
  handed
  = if int_le p threshold then
      Some {| Subject := "Crypto Alert: " +:+ name +:+ " Price Drop";
              From := sender;
              To := match getenv "ALERT_RECIPIENT" with
                    | Some r => if String.eqb r "" then sender else r
                    | None => sender
                    end;
              payload :=
                "Alert! " +:+ name +:+ " price dropped to " +:+
                fixed false (Value (JInt p)) +:+ " " +:+ upper currency +:+
                newline +:+ "24h Change: " +:+ change +:+ "%" +:+ newline +:+
                "Market Cap: " +:+ fixed true (Value (JInt n)) |}
    else None.
Proof.
  intros Hget Hprices Hp Hp' Hcaps Hcap Hn Hs Hs' Hw Hw' Hlogin name change.
  unfold handed, monitor_price. unfold answer_of_get in Hget.
  destruct (api_get _ _ _ _ _) as [o w1]. cbn [fst] in Hget. subst o.
  cbn [fst].
  assert (Hprice : current_price_of float_of (JDict d) currency
                   = Some (Value (JInt p))).
  { unfold current_price_of. cbn [get_or]. rewrite Hprices. simpl.
    by rewrite Hp. }
  unfold alert. rewrite Hprice. cbn [mbind option_bind le_threshold number].
  destruct (int_le p threshold); [|done].
  cbn [get_or]. rewrite Hcaps. simpl. rewrite Hcap. simpl.
  unfold format_fixed, has_fixed. cbn [number].
  replace (Z.abs p <? 2 ^ 1024 - 2 ^ 970) with true by (symmetry; lia).
  replace (Z.abs n <? 2 ^ 1024 - 2 ^ 970) with true by (symmetry; lia).
  cbn [mbind option_bind fst snd].
  assert (Hs1 : is_set (Some sender) = true) by (apply is_set_Some; eauto).
  assert (Hw1 : is_set (Some password) = true) by (apply is_set_Some; eauto).
  unfold send_email_alert. rewrite Hs, Hw. cbn [forallb].
  rewrite Hs1, Hw1. cbn [andb negb]. rewrite Hlogin.
  destruct (getenv "ALERT_RECIPIENT") as [r|]; cbn [is_set]; [|done].
  by destruct (String.eqb r "").
Qed.

End Monitor.

(** ** Sample runs of the further properties *)



(** A file saved under the path of [test_endpoint] is no fallback for
    [get("test_endpoint")]: the failure of the request is raised. *)
Lemma endpoint_file_is_not_read_witness :
  fst (get Demo.svc 1010 1011 Demo.net_down
         (with_endpoint_file 1000 "test_endpoint"
            (JDict [("cached", JStr "data")]) Demo.empty_world)
         "test_endpoint" None)
  = Raise ConnectionError.
Proof.
  rewrite (endpoint_file_is_not_read Demo.svc 1010 1011 Demo.net_down
             Demo.empty_world "test_endpoint" None 1000
             (JDict [("cached", JStr "data")])).
  - vm_compute. reflexivity.
  - vm_compute. discriminate.
Defined.

(** A coin with a plain price, asked for in two currencies. *)
Lemma plain_price_gives_no_data_witness :
  fst (get_top_cryptos Demo.svc (Market.calls (JList [Market.plain_coin]))
         Demo.empty_world 10 ["usd"; "eur"])
  = [].
Proof.
  refine (plain_price_gives_no_data Demo.svc
            (Market.calls (JList [Market.plain_coin])) Demo.empty_world 10
            "usd" "eur" [] [Market.plain_coin]
            [("id", JStr "bitcoin"); ("name", JStr "Bitcoin");
             ("current_price", JInt 42); ("market_cap", JInt 800)]
            (JStr "bitcoin") (JInt 42) _ _ _ _ _ _).
  - vm_compute. reflexivity.
  - left. reflexivity.
  - reflexivity.
  - reflexivity.
  - intros m. discriminate.
  - intros ids prices Hids Hprices.
    vm_compute in Hids. injection Hids as <-.
    vm_compute in Hprices. injection Hprices as <-.
    reflexivity.
Defined.


(** A price of 42 against a threshold of 50, the market cap given by
    currency. *)
Lemma alert_needs_cap_by_currency_witness :
  exists d rest p caps cap n,
    fst (api_get Demo.svc
           (Market.calls (JList [Market.coin_by_currency]) 0%nat)
           Demo.empty_world "coins/markets"
           [("vs_currency", JStr "usd"); ("ids", JStr "bitcoin")])
    = Return (JList (JDict d :: rest))
    /\ current_price_of Market.float_of (JDict d) "usd" = Some p
    /\ le_threshold p (Finite 50) = Some true
    /\ dict_get "market_cap" d = Some (JDict caps)
    /\ dict_get "usd" caps = Some cap
    /\ number cap = Some n.
Proof.
  refine (alert_needs_cap_by_currency Market.float_of Market.str_of
            Market.upper Market.fixed Demo.svc
            (Market.calls (JList [Market.coin_by_currency]) 0%nat)
            Market.getenv Market.login Demo.empty_world "bitcoin"
            (Finite 50) "usd" _ _).
  vm_compute. reflexivity.
Defined.

(** A coin without a price in [usd] against a threshold of 5. *)
Lemma missing_price_counts_as_zero_witness :
  is_Some
    (fst (monitor_price Market.float_of Market.str_of Market.upper
            Market.fixed Demo.svc
            (Market.calls (JList [Market.coin_in_eur]) 0%nat)
            Market.getenv Market.login Demo.empty_world "bitcoin"
            (Finite 5) "usd"))
  <-> int_le 0 (Finite 5) = true.
Proof.
  refine (missing_price_counts_as_zero Market.float_of Market.str_of
            Market.upper Market.fixed Demo.svc
            (Market.calls (JList [Market.coin_in_eur]) 0%nat)
            Market.getenv Market.login Demo.empty_world "bitcoin"
            (Finite 5) "usd"
            [("id", JStr "bitcoin"); ("name", JStr "Bitcoin");
             ("current_price", JDict [("eur", JInt 39)]);
             ("market_cap", JDict [("usd", JInt 800)])]
            [] [("usd", JInt 800)] 800 "alerts@example.org" "secret"
            _ _ _ _ _ _ _ _ _ _).
  - vm_compute. reflexivity.
  - left. exists [("eur", JInt 39)]. split; reflexivity.
  - reflexivity.
  - reflexivity.
  - vm_compute. reflexivity.
  - reflexivity.
  - discriminate.
  - reflexivity.
  - discriminate.
  - reflexivity.
Defined.

(** * What [get] leaves alone *)

(** X13: [get] changes no file but the cache file of its endpoint and
    parameters: every other path holds after the call what it held
    before, whatever the server answers. *)
Theorem get_keeps_other_files (self : t) (now later : Q)
    (net : string -> list (string * json) -> answer) (w : world)
    (endpoint : string) (params : option (list (string * json)))
    (path : string) :
  path <> cache_file endpoint params ->
  fs (snd (get self now later net w endpoint params)) !! path
  = fs w !! path.
Proof.
  intros Hne. unfold get.
  destruct (_is_cache_valid _ _ _ && truthy _); [done|].
  destruct (attempt _) as [e|v]; cbn [snd fs].
  - destruct (is_RequestException e); [|done]. by destruct (truthy _).
  - unfold _save_to_cache. by rewrite lookup_insert_ne.
Qed.

(** The file of another query is as it was after a fetch. *)
Lemma get_keeps_other_files_witness :
  fs (snd (get Demo.svc 1600 1601 Demo.net_ok (Demo.cached Demo.bitcoin)
             "coins/markets" Demo.markets))
  !! cache_file "coins/bitcoin" None
  = fs (Demo.cached Demo.bitcoin) !! cache_file "coins/bitcoin" None.
Proof.
  refine (get_keeps_other_files Demo.svc 1600 1601 Demo.net_ok
            (Demo.cached Demo.bitcoin) "coins/markets" Demo.markets
            (cache_file "coins/bitcoin" None) _).
  vm_compute. discriminate.
Defined.


(** A price of 42 against a threshold of 50: the message that is handed
    to the mail server. *)
Lemma alert_when_price_is_below_witness :
  fst (monitor_price Market.float_of Market.str_of Market.upper
         Market.fixed Demo.svc
         (Market.calls (JList [Market.coin_by_currency]) 0%nat)
         Market.getenv Market.login Demo.empty_world "bitcoin"
         (Finite 50) "usd")
  = Some {| Subject := "Crypto Alert: Bitcoin Price Drop";
            From := "alerts@example.org";
            To := "alerts@example.org";
            payload :=
              "Alert! Bitcoin price dropped to 42.00 USD" +:+ newline +:+
              "24h Change: N/A%" +:+ newline +:+ "Market Cap: 800.00" |}.
Proof.
  refine (eq_trans
            (alert_when_price_is_below Market.float_of Market.str_of
               Market.upper Market.fixed Demo.svc
               (Market.calls (JList [Market.coin_by_currency]) 0%nat)
               Market.getenv Market.login Demo.empty_world "bitcoin"
               (Finite 50) "usd"
               [("id", JStr "bitcoin"); ("name", JStr "Bitcoin");
                ("current_price", JDict [("usd", JInt 42)]);
                ("market_cap", JDict [("usd", JInt 800)])]
               [] [("usd", JInt 42)] [("usd", JInt 800)] 42 800
               "alerts@example.org" "secret" _ _ _ _ _ _ _ _ _ _ _ _) _).
  - vm_compute. reflexivity.
  - reflexivity.
  - reflexivity.
  - vm_compute. reflexivity.
  - reflexivity.
  - reflexivity.
  - vm_compute. reflexivity.
  - reflexivity.
  - discriminate.
  - reflexivity.
  - discriminate.
  - reflexivity.
  - vm_compute. reflexivity.
Defined.
